(** * sync-wimi: the reconciliation of a Wimi folder with a Dify knowledge base

    A shallow embedding of [sync_wimi.py]: the file-name helpers, the folder
    listing filter of [WimiFileSource.list_files], the sink client methods of
    [DifyKnowledgeClient] and the reconciliation loop of
    [synchronize_with_dify], followed by the properties of the design
    document that they decide. *)

From Equations Require Import Equations.
From Equations.Prop Require Import Logic.
From Stdlib Require Import String Ascii ZArith Bool Lia List Permutation.
Import ListNotations.
Local Open Scope string_scope.
Local Open Scope list_scope.
Local Open Scope Z_scope.

Set Implicit Arguments.

(** ** Python values and exceptions *)

(** The exceptions the modelled code raises.  All of them are subclasses of
    Python's [Exception], so an [except Exception] handler catches each one;
    an [except KeyError] handler catches [KeyError] only. *)
Inductive exn : Type :=
| IndexError
| KeyError
| ValueError
| UnboundLocalError (var : string)
| Exception_ (msg : string).

Inductive result (A : Type) : Type :=
| Ok (a : A)
| Err (e : exn).
Arguments Ok {A} a.
Arguments Err {A} e.

Definition bind_result {A B} (r : result A) (k : A -> result B) : result B :=
  match r with
  | Ok a => k a
  | Err e => Err e
  end.

(** [x in l] on a list of strings. *)
Definition py_in (x : string) (l : list string) : bool :=
  existsb (String.eqb x) l.

(** [l[i]], with Python's negative indices and its [IndexError]. *)
Definition py_index {A} (l : list A) (i : Z) : result A :=
  let j := if i <? 0 then i + Z.of_nat (length l) else i in
  if j <? 0 then Err IndexError
  else match nth_error l (Z.to_nat j) with
       | Some a => Ok a
       | None => Err IndexError
       end.

(** [l[:-1]]. *)
Definition py_init {A} (l : list A) : list A := removelast l.

(** ** Strings: [str.split], [str.join], [str.rfind] and slices *)

Module Str.

(** [s.split(sep)] for a one-character separator: every occurrence splits,
    empty segments are kept, and the result is never empty. *)
Fixpoint split (sep : ascii) (s : string) : list string :=
  match s with
  | EmptyString => [EmptyString]
  | String a s' =>
      if Ascii.eqb a sep then EmptyString :: split sep s'
      else match split sep s' with
           | h :: t => String a h :: t
           | [] => [String a EmptyString]
           end
  end.

(** [sep.join(parts)]. *)
Fixpoint join (sep : ascii) (parts : list string) : string :=
  match parts with
  | [] => EmptyString
  | [x] => x
  | x :: rest => (x ++ String sep (join sep rest))%string
  end.

(** [s.rfind(c)]: the index of the last occurrence of [c], or [-1]. *)
Fixpoint rfind (c : ascii) (s : string) : Z :=
  match s with
  | EmptyString => -1
  | String a s' =>
      let r := rfind c s' in
      if 0 <=? r then r + 1
      else if Ascii.eqb a c then 0 else -1
  end.

(** [s[:n]] and [s[n:]] for [0 <= n]. *)
Fixpoint take (n : nat) (s : string) : string :=
  match n, s with
  | S n', String a s' => String a (take n' s')
  | _, _ => EmptyString
  end.

Fixpoint drop (n : nat) (s : string) : string :=
  match n, s with
  | S n', String _ s' => drop n' s'
  | _, _ => s
  end.

(** [s[i:i+1]], the empty string past the end. *)
Definition char_at (i : nat) (s : string) : string := take 1 (drop i s).

Definition has_char (c : ascii) (s : string) : bool := 0 <=? rfind c s.

End Str.

(** ** [os.path.splitext] (POSIX flavour)

    [genericpath._splitext] with [sep = "/"], no [altsep] and
    [extsep = "."]: the extension starts at the last dot of the last path
    component, unless that component has only dots before it. *)

Definition sep : ascii := "/"%char.
Definition extsep : ascii := "."%char.

(** The loop [while filenameIndex < dotIndex] that skips leading dots;
    [n] is [dotIndex - filenameIndex]. *)
Fixpoint splitext_scan (p : string) (dotIndex filenameIndex n : nat)
  : string * string :=
  match n with
  | O => (p, EmptyString)
  | S n' =>
      if negb (String.eqb (Str.char_at filenameIndex p) (String extsep EmptyString))
      then (Str.take dotIndex p, Str.drop dotIndex p)
      else splitext_scan p dotIndex (S filenameIndex) n'
  end.

Definition splitext (p : string) : string * string :=
  let sepIndex := Str.rfind sep p in
  let dotIndex := Str.rfind extsep p in
  if sepIndex <? dotIndex then
    let filenameIndex := sepIndex + 1 in
    splitext_scan p (Z.to_nat dotIndex) (Z.to_nat filenameIndex)
                  (Z.to_nat (dotIndex - filenameIndex))
  else (p, EmptyString).

(** ** Module constants *)

Definition SUPPORTED_EXTENSIONS_DIFY : list string :=
  [".txt"; ".md"; ".md"; ".pdf"; ".html"; ".htm"; ".xlsx"; ".xls"; ".csv"].

Definition SUPPORTED_EXTENSIONS_UNSTRUCTURED : list string :=
  [".csv"; ".eml"; ".msg"; ".epub"; ".xlsx"; ".xls"; ".html"; ".htm"; ".md";
   ".markdown"; ".pdf"; ".txt"; ".pptx"; ".docx"; ".xml"].

(** ** [remove_multiple_extensions] *)

(** The loop [while parts[-1] == parts[-2]: parts = parts[:-1]]. *)
Equations? collapse_loop (parts : list string) : result (list string)
  by wf (length parts) lt :=
  collapse_loop parts with inspect (py_index parts (-1)) := {
    | exist _ (Err e) _ => Err e
    | exist _ (Ok a) Ha with py_index parts (-2) := {
        | Err e => Err e
        | Ok b with String.eqb a b := {
            | true => collapse_loop (py_init parts)
            | false => Ok parts } } }.
Proof.
  destruct parts as [|x parts]; [discriminate|].
  unfold py_init. clear.
  revert x; induction parts as [|y parts IH]; intros x; [simpl; lia|].
  change (removelast (x :: y :: parts)) with (x :: removelast (y :: parts)).
  simpl length in *. specialize (IH y). lia.
Qed.

Definition remove_multiple_extensions (filename : string) : result string :=
  let parts := Str.split extsep filename in
  if (2 <? length parts)%nat then
    bind_result (collapse_loop parts) (fun parts => Ok (Str.join extsep parts))
  else Ok filename.

(** [convert_to_timestamp]: the first of the two formats that parses wins.
    [strptime date_str fmt] stands for
    [datetime.strptime(date_str, fmt).timestamp()], [None] for its
    [ValueError]. *)
Definition formats : list string :=
  ["%Y-%m-%d %H:%M:%S.%f"; "%Y-%m-%d %H:%M:%S"].

Fixpoint first_format (strptime : string -> string -> option Z)
  (date_str : string) (fmts : list string) : result Z :=
  match fmts with
  | [] => Err ValueError
  | fmt :: fmts' =>
      match strptime date_str fmt with
      | Some t => Ok t
      | None => first_format strptime date_str fmts'
      end
  end.

Definition convert_to_timestamp (strptime : string -> string -> option Z)
  (date_str : string) : result Z :=
  first_format strptime date_str formats.

(** ** Documents *)

(** [class Document].  [date] is [float(date)], a finite count of seconds;
    only its order is used, and it is kept as an integer here. *)
Record Document : Type := mkDocument {
  name : string;
  id : string;
  date : Z;
  mime_type : option string;
  workspace_id : option string
}.

(** One element of the [files] array of a [document.entry.list] answer, with
    the four keys [list_files] reads. *)
Record FileEntry : Type := mkFileEntry {
  entry_name : string;
  entry_extension : string;
  entry_file_id : string;
  entry_date : string
}.

(** What the program prints, one constructor per [print] statement. *)
Inductive message : Type :=
| MsgNotSupportedFile (file_name : string)
| MsgDownloading (document_name : string)
| MsgWorkspaceId (workspace : option string)
| MsgKeyErrorWith (document_name : string)
| MsgResponseJson
| MsgDeletingAndPerformingAgain
| MsgDeletedSuccessfully (document_id : string)
| MsgFailedToDelete (document_id : string)
| MsgExistingDocuments
| MsgDocument (doc : Document)
| MsgProcessingFile (file_name file_id : string)
| MsgUpdatedDocument (document_name : string)
| MsgNoNeedToUpdate (document_name : string)
| MsgUnsupportedFileType (extension : string)
| MsgErrorUploading (document_name : string)
| MsgTryingAgain
| MsgSuccess
| MsgUploadedNew (document_name : string)
| MsgRep (rep : string)
| MsgDeletedNoLongerInDrive (document_name : string).

(** ** [WimiFileSource] *)

Record WimiFileSource : Type := mkWimiFileSource {
  extensions : list string
}.

(** The part of [WimiFileSource.__init__] that selects the extension list:
    [os.getenv] gives [None] or a string, and the empty string is falsy. *)
Definition WimiFileSource_init (getenv_UNSTRUCTURED : option string)
  : WimiFileSource :=
  mkWimiFileSource
    match getenv_UNSTRUCTURED with
    | Some (String _ _) => SUPPORTED_EXTENSIONS_UNSTRUCTURED
    | _ => SUPPORTED_EXTENSIONS_DIFY
    end.

(** The loop of [WimiFileSource.list_files] over the [files] of the answer.
    It returns what was printed together with the list built, or the
    exception that ended the loop. *)
Fixpoint list_files_loop (strptime : string -> string -> option Z)
  (self : WimiFileSource) (project_id : string) (files_dicts : list FileEntry)
  (files : list Document) (printed : list message)
  : list message * result (list Document) :=
  match files_dicts with
  | [] => (printed, Ok files)
  | d :: rest =>
      if py_in ("." ++ entry_extension d)%string (extensions self) then
        match remove_multiple_extensions (entry_name d) with
        | Err e => (printed, Err e)
        | Ok n =>
            match convert_to_timestamp strptime (entry_date d) with
            | Err e => (printed, Err e)
            | Ok t =>
                list_files_loop strptime self project_id rest
                  (files ++ [mkDocument n (entry_file_id d) t None (Some project_id)])
                  printed
            end
        end
      else
        list_files_loop strptime self project_id rest files
          (printed ++ [MsgNotSupportedFile (entry_name d)])
  end.

Definition list_files (strptime : string -> string -> option Z)
  (self : WimiFileSource) (project_id : string) (files_dicts : list FileEntry)
  : list message * result (list Document) :=
  list_files_loop strptime self project_id files_dicts [] [].

(** ** Effects: the two services, the printed output and the local frame *)

(** The bytes of a file and the [document] object of a sink answer. *)
Definition content : Type := string.
Definition json : Type := string.

(** An [io.BytesIO] object, by its address in the store of streams.  The
    code wraps the bytes of a download in one such object and hands that
    same object to every call of the turn. *)
Definition BytesIO : Type := nat.

(** The store of streams holds, for every [io.BytesIO] object made so far,
    what is left to read of it.  [unread] is that rest, and [exhaust]
    leaves the stream at its end. *)
Definition unread (stream : BytesIO) (streams : list content) : content :=
  nth stream streams EmptyString.

Fixpoint exhaust (stream : BytesIO) (streams : list content) : list content :=
  match streams, stream with
  | [], _ => []
  | _ :: rest, O => EmptyString :: rest
  | c :: rest, S stream' => c :: exhaust stream' rest
  end.

(** The observable calls, in the order they happen.  The content of a
    create or an update is the bytes the request carries. *)
Inductive event : Type :=
| Printed (m : message)
| Download (document : Document)
| CreateByFile (document_name : string) (document_content : content)
| UpdateByFile (document_name document_id : string) (document_content : content)
| DeleteDocument (document_id : string)
| ListDocuments.

(** The two remote services, as far as the code looks at their answers:
    a download gives the bytes when the status is 200; [create_by_file] and
    [update_by_file] give the [document] key of the JSON answer when it has
    one; a delete tells whether the status is 200; the paged listing gives
    the documents when every page has status 200.  Exceptions of the HTTP
    transport itself are not modelled.  [W] is the state of the outside
    world. *)
Record Services (W : Type) : Type := mkServices {
  srv_download : Document -> W -> option content * W;
  srv_create_by_file : string -> content -> W -> option json * W;
  srv_update_by_file : string -> string -> content -> W -> option json * W;
  srv_delete : string -> W -> bool * W;
  srv_list_documents : W -> option (list Document) * W
}.

(** The local variables of [synchronize_with_dify] that outlive one turn of
    its first loop: they are bound to nothing until first assigned. *)
Record frame : Type := mkFrame {
  content_stream : option BytesIO;
  rep : option json
}.

Definition empty_frame : frame := mkFrame None None.

Record state (W : Type) : Type := mkState {
  st_world : W;
  st_frame : frame;
  st_streams : list content
}.

(** A computation: from a state to its outcome, the state reached and the
    events emitted on the way (also when it ends in an exception). *)
Definition M (W A : Type) : Type := state W -> result A * state W * list event.

Section Monad.
Context {W : Type}.

Definition ret {A} (a : A) : M W A := fun st => (Ok a, st, []).

Definition raise {A} (e : exn) : M W A := fun st => (Err e, st, []).

Definition bind {A B} (m : M W A) (k : A -> M W B) : M W B :=
  fun st =>
    match m st with
    | (Ok a, st1, t1) =>
        match k a st1 with
        | (r, st2, t2) => (r, st2, t1 ++ t2)
        end
    | (Err e, st1, t1) => (Err e, st1, t1)
    end.

(** [try: m except <catches>: handler]. *)
Definition try_except {A} (m : M W A) (catches : exn -> bool)
  (handler : M W A) : M W A :=
  fun st =>
    match m st with
    | (Ok a, st1, t1) => (Ok a, st1, t1)
    | (Err e, st1, t1) =>
        if catches e then
          match handler st1 with
          | (r, st2, t2) => (r, st2, t1 ++ t2)
          end
        else (Err e, st1, t1)
    end.

(** A pure step that may raise. *)
Definition lift {A} (r : result A) : M W A := fun st => (r, st, []).

Definition emit (e : event) : M W unit := fun st => (Ok tt, st, [e]).

Definition print (m : message) : M W unit := emit (Printed m).

Definition when (b : bool) (m : M W unit) : M W unit :=
  if b then m else ret tt.

Fixpoint for_each {A} (l : list A) (body : A -> M W unit) : M W unit :=
  match l with
  | [] => ret tt
  | x :: l' => bind (body x) (fun _ => for_each l' body)
  end.

(** A call to a service: the event, then the answer and the new world. *)
Definition call {A} (e : event) (f : W -> A * W) : M W A :=
  fun st =>
    match f (st_world st) with
    | (a, w) => (Ok a, mkState w (st_frame st) (st_streams st), [e])
    end.

(** [io.BytesIO(bytes)]: a new object, of which nothing is read yet. *)
Definition new_BytesIO (bytes : content) : M W BytesIO :=
  fun st =>
    (Ok (length (st_streams st)),
     mkState (st_world st) (st_frame st) (st_streams st ++ [bytes]), []).

(** [fp.read()], which is what the HTTP library does with a file object
    given among [files] when it builds the body of the request: the bytes
    from the position of the stream to its end, the stream being left at
    its end. *)
Definition stream_read (stream : BytesIO) : M W content :=
  fun st =>
    (Ok (unread stream (st_streams st)),
     mkState (st_world st) (st_frame st) (exhaust stream (st_streams st)), []).

(** Reading and assigning the locals of the frame. *)
Definition load_content_stream : M W BytesIO :=
  fun st =>
    match content_stream (st_frame st) with
    | Some c => (Ok c, st, [])
    | None => (Err (UnboundLocalError "content_stream"), st, [])
    end.

Definition load_rep : M W json :=
  fun st =>
    match rep (st_frame st) with
    | Some r => (Ok r, st, [])
    | None => (Err (UnboundLocalError "rep"), st, [])
    end.

Definition store_content_stream (c : BytesIO) : M W unit :=
  fun st =>
    (Ok tt,
     mkState (st_world st) (mkFrame (Some c) (rep (st_frame st)))
             (st_streams st), []).

Definition store_rep (r : json) : M W unit :=
  fun st =>
    (Ok tt,
     mkState (st_world st) (mkFrame (content_stream (st_frame st)) (Some r))
             (st_streams st), []).

End Monad.

Declare Scope sync_scope.
Delimit Scope sync_scope with sync.
Notation "x <- m ;; k" := (bind m (fun x => k))
  (at level 61, m at next level, right associativity) : sync_scope.
Notation "m ;; k" := (bind m (fun _ => k))
  (at level 61, right associativity) : sync_scope.
Local Open Scope sync_scope.

Definition catch_KeyError (e : exn) : bool :=
  match e with KeyError => true | _ => false end.

Definition catch_Exception (e : exn) : bool := true.

(** ** [max] and [sorted] with a key *)

(** [max(l, key=...)]: the running best is replaced by an element of
    strictly larger key only, so the first of the largest ones is returned;
    [ValueError] on an empty list. *)
Definition later {A} (key : A -> Z) (best y : A) : A :=
  if key best <? key y then y else best.

Definition py_max {A} (key : A -> Z) (l : list A) : result A :=
  match l with
  | [] => Err ValueError
  | x :: rest => Ok (fold_left (later key) rest x)
  end.

(** [sorted(l, key=..., reverse=True)]: descending and stable, elements of
    equal key keep their order. *)
Fixpoint insert_desc {A} (key : A -> Z) (x : A) (l : list A) : list A :=
  match l with
  | [] => [x]
  | y :: l' => if key x <? key y then y :: insert_desc key x l' else x :: l
  end.

Fixpoint sorted_desc {A} (key : A -> Z) (l : list A) : list A :=
  match l with
  | [] => []
  | x :: l' => insert_desc key x (sorted_desc key l')
  end.

(** ** Sets of documents *)

(** [get_existing_documents] collects the documents in a Python [set].
    [Document] defines neither [__eq__] nor [__hash__], so the set holds
    every object it was given and a loop over it meets each of them once,
    in an order that is the same for every loop of a run (the set is not
    changed after it is built) but need not be the order of the pages.
    [iterate order docs] is that order for the set made of [docs]; each run
    builds its own set and has its own [order]. *)
Record SetOrder : Type := mkSetOrder {
  iterate : list Document -> list Document;
  iterate_perm : forall docs, Permutation (iterate docs) docs
}.

(** ** [DifyKnowledgeClient], [WimiFileSource.download_file] and the
    reconciliation *)

Section Client.
Context {W : Type} (srv : Services W).

(** [response.json()['document']]. *)
Definition document_of_response (response : option json) : M W json :=
  match response with
  | Some doc => ret doc
  | None => raise KeyError
  end.

(** [DifyKnowledgeClient.get_existing_documents]: the set of the documents
    of every page, as the list of its elements in the order of a loop over
    it, or the exception of a page whose status is not 200. *)
Definition get_existing_documents (order : SetOrder) : M W (list Document) :=
  documents <- call ListDocuments (srv_list_documents srv) ;;
  match documents with
  | Some docs => ret (iterate order docs)
  | None => raise (Exception_ "Failed to fetch existing documents")
  end.

(** [DifyKnowledgeClient.upload_document]: the request carries what is left
    to read of [document_content]. *)
Definition upload_document (document_name : string) (document_content : BytesIO)
  : M W json :=
  body <- stream_read document_content ;;
  response <- call (CreateByFile document_name body)
                   (srv_create_by_file srv document_name body) ;;
  try_except (document_of_response response) catch_KeyError
    (print (MsgKeyErrorWith document_name) ;;
     print MsgResponseJson ;;
     raise KeyError).

(** [DifyKnowledgeClient.delete_document]. *)
Definition delete_document (document_id : string) : M W unit :=
  ok <- call (DeleteDocument document_id) (srv_delete srv document_id) ;;
  if ok : bool then print (MsgDeletedSuccessfully document_id)
  else print (MsgFailedToDelete document_id).

(** [DifyKnowledgeClient.update_document]: the [document] of the answer, or
    Python's [None] after the fallback, which hands the same stream object
    to [upload_document]. *)
Definition update_document (document_name document_id : string)
  (document_content : BytesIO) : M W (option json) :=
  body <- stream_read document_content ;;
  response <- call (UpdateByFile document_name document_id body)
                   (srv_update_by_file srv document_name document_id body) ;;
  try_except (doc <- document_of_response response ;; ret (Some doc))
    catch_KeyError
    (print MsgDeletingAndPerformingAgain ;;
     delete_document document_id ;;
     upload_document document_name document_content ;;
     ret None).

(** [WimiFileSource.download_file]. *)
Definition download_file (document : Document) : M W content :=
  print (MsgDownloading (name document)) ;;
  print (MsgWorkspaceId (workspace_id document)) ;;
  response <- call (Download document) (srv_download srv document) ;;
  match response with
  | Some bytes => ret bytes
  | None => raise (Exception_ "Failed to download file")
  end.

(** The [if] branch of the first loop of [synchronize_with_dify]: the name
    of [file] is the name of a document of the sink. *)
Definition process_existing (existing_documents : list Document)
  (remove_duplicates verbose : bool) (file : Document) : M W unit :=
  let document_name := name file in
  let document_with_name :=
    filter (fun d => String.eqb (name d) document_name) existing_documents in
  existing_document <- lift (py_max date document_with_name) ;;
  when (remove_duplicates && (1 <? length document_with_name)%nat)
    (let sorted_documents := tl (sorted_desc date document_with_name) in
     for_each sorted_documents (fun doc => delete_document (id doc))) ;;
  if date existing_document <=? date file then
    let extension := ("." ++ snd (splitext (name file)))%string in
    when (py_in extension SUPPORTED_EXTENSIONS_UNSTRUCTURED)
      (bytes <- download_file file ;;
       stream <- new_BytesIO bytes ;;
       store_content_stream stream ;;
       update_document document_name (id existing_document) stream ;;
       ret tt) ;;
    print (MsgUpdatedDocument document_name)
  else
    when verbose (print (MsgNoNeedToUpdate document_name)).

(** The [else] branch: no document of the sink has the name of [file]. *)
Definition process_new (verbose : bool) (file : Document) : M W unit :=
  let document_name := name file in
  try_except
    (bytes <- download_file file ;;
     stream <- new_BytesIO bytes ;;
     store_content_stream stream ;;
     let extension := snd (splitext (name file)) in
     if py_in extension SUPPORTED_EXTENSIONS_UNSTRUCTURED then
       r <- upload_document document_name stream ;;
       store_rep r
     else
       when verbose (print (MsgUnsupportedFileType extension)))
    catch_Exception
    (print (MsgErrorUploading document_name) ;;
     print MsgTryingAgain ;;
     stream <- load_content_stream ;;
     r <- upload_document document_name stream ;;
     store_rep r ;;
     print MsgSuccess) ;;
  when verbose
    (print (MsgUploadedNew document_name) ;;
     r <- load_rep ;;
     print (MsgRep r)).

(** The body of the first loop, for one [file] of [all_documents]. *)
Definition process_file (existing_documents : list Document)
  (remove_duplicates verbose : bool) (file : Document) : M W unit :=
  let document_name := name file in
  when verbose (print (MsgProcessingFile (name file) (id file))) ;;
  if py_in document_name (map name existing_documents) then
    process_existing existing_documents remove_duplicates verbose file
  else
    process_new verbose file.

(** The second loop: the documents of the sink that no file is named as. *)
Definition delete_orphans (all_documents existing_documents : list Document)
  (verbose : bool) : M W unit :=
  for_each existing_documents (fun doc =>
    if negb (py_in (name doc) (map name all_documents)) then
      delete_document (id doc) ;;
      when verbose (print (MsgDeletedNoLongerInDrive (name doc)))
    else ret tt).

(** The first loop: one turn per element of [all_documents], in order. *)
Definition create_update_pass (all_documents existing_documents : list Document)
  (remove_duplicates verbose : bool) : M W unit :=
  for_each all_documents
    (process_file existing_documents remove_duplicates verbose).

(** [synchronize_with_dify] once [existing_documents] is known: the set, as
    the list of its elements in the order of a loop over it. *)
Definition reconcile (all_documents existing_documents : list Document)
  (remove_duplicates verbose : bool) : M W unit :=
  when verbose
    (print MsgExistingDocuments ;;
     for_each existing_documents (fun doc => print (MsgDocument doc))) ;;
  create_update_pass all_documents existing_documents remove_duplicates verbose ;;
  delete_orphans all_documents existing_documents verbose.

Definition synchronize_with_dify (order : SetOrder)
  (all_documents : list Document) (remove_duplicates verbose : bool)
  : M W unit :=
  existing_documents <- get_existing_documents order ;;
  reconcile all_documents existing_documents remove_duplicates verbose.

End Client.

(** ** Reading a run *)

Definition outcome {W A} (r : result A * state W * list event) : result A :=
  fst (fst r).
Definition final {W A} (r : result A * state W * list event) : state W :=
  snd (fst r).
Definition trace {W A} (r : result A * state W * list event) : list event :=
  snd r.

Definition is_create (e : event) : bool :=
  match e with CreateByFile _ _ => true | _ => false end.
Definition is_update (e : event) : bool :=
  match e with UpdateByFile _ _ _ => true | _ => false end.
Definition is_delete (e : event) : bool :=
  match e with DeleteDocument _ => true | _ => false end.

(** The calls that change the sink. *)
Definition is_sink_write (e : event) : bool :=
  is_create e || is_update e || is_delete e.

Definition sink_writes (t : list event) : list event := filter is_sink_write t.

(** ** Vocabulary of the statements *)

(** [s] written [k] times. *)
Fixpoint repeat_string (s : string) (k : nat) : string :=
  match k with
  | O => EmptyString
  | S k' => (repeat_string s k' ++ s)%string
  end.

(** The test [list_files] applies to one entry of the answer. *)
Definition entry_supported (self : WimiFileSource) (d : FileEntry) : bool :=
  py_in ("." ++ entry_extension d)%string (extensions self).

(** The lines [list_files] prints for the entries it leaves out. *)
Definition not_supported_messages (self : WimiFileSource)
  (files_dicts : list FileEntry) : list message :=
  map (fun d => MsgNotSupportedFile (entry_name d))
      (filter (fun d => negb (entry_supported self d)) files_dicts).

(** [doc] is the document [list_files] builds from the entry [d]. *)
Definition ingested (strptime : string -> string -> option Z)
  (project_id : string) (doc : Document) (d : FileEntry) : Prop :=
  remove_multiple_extensions (entry_name d) = Ok (name doc) /\
  id doc = entry_file_id d /\
  convert_to_timestamp strptime (entry_date d) = Ok (date doc) /\
  mime_type doc = None /\
  workspace_id doc = Some project_id.

(** ASCII case folding, to compare names up to letter case. *)
Definition lower_ascii (a : ascii) : ascii :=
  let n := nat_of_ascii a in
  if ((65 <=? n) && (n <=? 90))%nat then ascii_of_nat (n + 32) else a.

Fixpoint casefold (s : string) : string :=
  match s with
  | EmptyString => EmptyString
  | String a s' => String (lower_ascii a) (casefold s')
  end.

(** Every event a computation emits satisfies [P], from any state. *)
Definition emits_only {W A} (P : event -> Prop) (m : M W A) : Prop :=
  forall st, Forall P (trace (m st)).

Definition not_update (e : event) : Prop := is_update e = false.

(** What [reconcile] prints before its first loop. *)
Definition listing_of_existing (existing_documents : list Document)
  (verbose : bool) : list event :=
  if verbose then
    Printed MsgExistingDocuments
      :: map (fun doc => Printed (MsgDocument doc)) existing_documents
  else [].

(** ** Sample services *)

(** Services that give the same answers whatever they are asked. *)
Definition constant_services (downloaded : option content)
  (created updated : option json) (deleted : bool)
  (documents : list Document) : Services unit :=
  mkServices
    (fun _ w => (downloaded, w))
    (fun _ _ w => (created, w))
    (fun _ _ _ w => (updated, w))
    (fun _ w => (deleted, w))
    (fun w => (Some documents, w)).

Definition accepting_services : Services unit :=
  constant_services (Some "%PDF") (Some "{id}") (Some "{id}") true [].

(** A sink that rejects the first create it is asked for and accepts the
    later ones; every download succeeds.  The world counts the creates. *)
Definition rejecting_once : Services nat :=
  mkServices
    (fun _ w => (Some "%PDF", w))
    (fun _ _ w => (match w with O => None | S _ => Some "{id}" end, S w))
    (fun _ _ _ w => (None, w))
    (fun _ w => (true, w))
    (fun w => (Some [], w)).

(** A source that has the content of the file "801" only, and a sink that
    accepts everything. *)
Definition one_file_source : Services unit :=
  mkServices
    (fun d w => ((if String.eqb (id d) "801" then Some "notes" else None), w))
    (fun _ _ w => (Some "{id}", w))
    (fun _ _ _ w => (Some "{id}", w))
    (fun _ w => (true, w))
    (fun w => (Some [], w)).

(** A sink that keeps what it is given: a created document is listed from
    then on under a fresh identifier and the time of its creation; a delete
    removes the document of that identifier; an update is accepted for a
    listed identifier.  Every download succeeds. *)
Record SinkWorld : Type := mkSinkWorld {
  sink_documents : list Document;
  sink_clock : Z;
  sink_next : nat
}.

Definition fresh_id (n : nat) : string := repeat_string "i" (S n).

Definition has_id (i : string) (docs : list Document) : bool :=
  existsb (fun d => String.eqb (id d) i) docs.

Definition keeping_sink : Services SinkWorld :=
  mkServices
    (fun d w => (Some ("content of " ++ id d)%string, w))
    (fun n _ w =>
       let i := fresh_id (sink_next w) in
       (Some i,
        mkSinkWorld
          (sink_documents w ++ [mkDocument n i (sink_clock w) None None])
          (sink_clock w + 1) (S (sink_next w))))
    (fun _ i _ w =>
       ((if has_id i (sink_documents w) then Some i else None), w))
    (fun i w =>
       (has_id i (sink_documents w),
        mkSinkWorld
          (filter (fun d => negb (String.eqb (id d) i)) (sink_documents w))
          (sink_clock w) (sink_next w)))
    (fun w => (Some (sink_documents w), w)).

(** The state a run starts in: nothing is bound in the frame and no stream
    has been made. *)
Definition start {W} (w : W) : state W := mkState w empty_frame [].

(** The state after [io.BytesIO(bytes)] in a program that made no other
    stream: the object is at address 0. *)
Definition one_stream {W} (w : W) (bytes : content) : state W :=
  mkState w empty_frame [bytes].

(** Two orders a set of documents can be met in: the order they were put
    in, and the opposite one. *)
Definition insertion_order : SetOrder :=
  mkSetOrder (fun docs => docs) (@Permutation_refl Document).

Definition opposite_order : SetOrder :=
  mkSetOrder (@rev Document)
    (fun docs => Permutation_sym (Permutation_rev docs)).

(** ** Sample inputs *)

Definition desired (n i : string) (t : Z) : Document :=
  mkDocument n i t None (Some "7").

Definition existing (n i : string) (t : Z) : Document :=
  mkDocument n i t None None.

(** A clock-free stand-in for [strptime]: every date string parses. *)
Definition sample_strptime (date_str fmt : string) : option Z := Some 1704164645.

Definition two_entries : list FileEntry :=
  [mkFileEntry "notes.txt" "txt" "11" "2024-01-02 03:04:05";
   mkFileEntry "Scan.PDF" "PDF" "12" "2024-01-02 03:04:06"].

Definition mixed_case_entries : list FileEntry :=
  [mkFileEntry "Report.pdf.pdf" "pdf" "21" "2024-01-02 03:04:05";
   mkFileEntry "report.pdf.pdf" "pdf" "22" "2024-01-02 03:04:05"].

Definition tripled_entries : list FileEntry :=
  [mkFileEntry "report.v2.pdf.pdf.pdf" "pdf" "31" "2024-01-02 03:04:05"].

(** One desired document and the sink entry of its name, older or newer. *)
Definition desired_pdf : list Document := [desired "a.pdf" "501" 100].
Definition older_pdf : list Document := [existing "a.pdf" "s1" 50].
Definition newer_pdf : list Document := [existing "a.pdf" "s1" 150].

(** Three sink entries of one name, created at 10, 20 and 15. *)
Definition three_x : list Document :=
  [existing "x" "s10" 10; existing "x" "s20" 20; existing "x" "s15" 15].

(** The sink has "a" and "b", the source has "a" only. *)
Definition only_a : list Document := [desired "a" "601" 100].
Definition a_and_b : list Document :=
  [existing "a" "sa" 150; existing "b" "sb" 160].

(** Two folders that each hold a file named "a.pdf", the documents their
    listings add up to, and two runs in a row on a sink that starts empty. *)
Definition folder_one : list FileEntry :=
  [mkFileEntry "a.pdf" "pdf" "501" "2024-01-02 03:04:05"].

Definition folder_two : list FileEntry :=
  [mkFileEntry "a.pdf" "pdf" "502" "2024-01-02 03:04:05"].

Definition twins : list Document :=
  [desired "a.pdf" "501" 1704164645; desired "a.pdf" "502" 1704164645].

Definition empty_sink : SinkWorld := mkSinkWorld [] 1704170000 0.



(** ** Further vocabulary *)

(** The name of the entry normalises and its date parses. *)
Definition readable (strptime : string -> string -> option Z)
  (d : FileEntry) : Prop :=
  (exists n, remove_multiple_extensions (entry_name d) = Ok n) /\
  (exists t, convert_to_timestamp strptime (entry_date d) = Ok t).

(** What reading the entry raises: the exception of its name, or else that
    of its date. *)
Definition unreadable_with (strptime : string -> string -> option Z)
  (d : FileEntry) (e : exn) : Prop :=
  remove_multiple_extensions (entry_name d) = Err e \/
  ((exists n, remove_multiple_extensions (entry_name d) = Ok n) /\
   convert_to_timestamp strptime (entry_date d) = Err e).

(** The documents of the sink that have the name [n]. *)
Definition named (n : string) (E : list Document) : list Document :=
  filter (fun d => String.eqb (name d) n) E.

(** The calls a run on [D] and [E] can make: it fetches and creates for
    files of [D] whose name [E] lacks, and deletes documents of [E] that
    are orphans or, with [remove_duplicates], come after the first of their
    name in descending order of date. *)
Definition expected_call (D E : list Document) (remove_duplicates : bool)
  (e : event) : Prop :=
  match e with
  | CreateByFile n _ =>
      In n (map name D) /\ py_in n (map name E) = false
  | Download f =>
      In f D /\ py_in (name f) (map name E) = false
  | UpdateByFile _ _ _ => False
  | DeleteDocument i =>
      exists d, In d E /\ id d = i /\
        (py_in (name d) (map name D) = false \/
         (remove_duplicates = true /\ In (name d) (map name D) /\
          In d (tl (sorted_desc date (named (name d) E)))))
  | _ => True
  end.

(** ** The rest of the program

    The functions below are the ones the run goes through before it
    reconciles: the resolution of workspaces and folders, the recursive
    listing, the paged listing of the sink and the look-up of the knowledge
    base.  Characters are code points below 256. *)

(** *** [WimiFileSource.get_project_id] *)

(** [str.isnumeric] on code points below 256: the ten digits, the
    superscripts one to three and the three vulgar fractions are numeric;
    the empty string is not. *)
Definition numeric_char (a : ascii) : bool :=
  let n := nat_of_ascii a in
  ((48 <=? n) && (n <=? 57) || (n =? 178) || (n =? 179) || (n =? 185)
   || (188 <=? n) && (n <=? 190))%nat.

Definition decimal_char (a : ascii) : bool :=
  let n := nat_of_ascii a in ((48 <=? n) && (n <=? 57))%nat.

Fixpoint all_chars (p : ascii -> bool) (s : string) : bool :=
  match s with
  | EmptyString => true
  | String a s' => p a && all_chars p s'
  end.

Definition isnumeric (s : string) : bool :=
  match s with
  | EmptyString => false
  | _ => all_chars numeric_char s
  end.

(** The value of a string of decimal digits, most significant first. *)
Fixpoint decimal_value (acc : Z) (s : string) : Z :=
  match s with
  | EmptyString => acc
  | String a s' => decimal_value (10 * acc + Z.of_nat (nat_of_ascii a - 48)) s'
  end.

(** [int(s)] on a string that [isnumeric] accepts: the other numeric
    characters are not decimal digits, and more than 4300 digits exceed
    CPython's default limit for the conversion; both are [ValueError]. *)
Definition int_of_numeric (s : string) : result Z :=
  if all_chars decimal_char s && (String.length s <=? 4300)%nat
  then Ok (decimal_value 0 s)
  else Err ValueError.

(** The loop over [self.projects], each a [name] and a [project_id]. *)
Fixpoint find_project (projects : list (string * Z)) (wanted : string)
  : result Z :=
  match projects with
  | [] => Err ValueError
  | (project_name, project_id) :: rest =>
      if String.eqb project_name wanted then Ok project_id
      else find_project rest wanted
  end.

Definition get_project_id (projects : list (string * Z))
  (project_name_or_id : string) : result Z :=
  if isnumeric project_name_or_id then int_of_numeric project_name_or_id
  else find_project projects project_name_or_id.

(** *** Folders: [list_folders], [list_files_recursive] and
    [retrieve_files_from_folder] *)

(** The answer to [document.entry.list]: the files and the sub-folders
    (name and [dir_id]) of one folder. *)
Record Answer : Type := mkAnswer {
  answer_files : list FileEntry;
  answer_dirs : list (string * Z)
}.

(** The drive: what [document.entry.list] answers for a project and a
    [dir_id], or for the top level of the project when none is sent. *)
Definition Drive : Type := string -> option Z -> Answer.

(** [if folder_id: ... dir_id = int(folder_id)]: [None] and [0] are falsy,
    and then no [dir_id] is sent. *)
Definition sent_dir_id (folder_id : option Z) : option Z :=
  match folder_id with
  | Some z => if z =? 0 then None else Some z
  | None => None
  end.

Definition listing_result : Type := (list message * result (list Document))%type.

(** [list_files] and [list_folders] with their request. *)
Definition list_files_of (strptime : string -> string -> option Z)
  (self : WimiFileSource) (drive : Drive) (project_id : string)
  (folder_id : option Z) : listing_result :=
  list_files strptime self project_id
    (answer_files (drive project_id (sent_dir_id folder_id))).

Definition list_folders (drive : Drive) (project_id : string)
  (folder_id : option Z) : list (string * Z) :=
  answer_dirs (drive project_id (sent_dir_id folder_id)).

(** The loop of [list_files_recursive] over the sub-folders; [recurse] is
    the recursive call and answers [None] when it does not come back. *)
Fixpoint subfolders_loop (recurse : Z -> option listing_result)
  (folders : list (string * Z)) (all_files : list Document)
  (printed : list message) : option listing_result :=
  match folders with
  | [] => Some (printed, Ok all_files)
  | (_, subfolder_id) :: rest =>
      match recurse subfolder_id with
      | None => None
      | Some (p, Err e) => Some (printed ++ p, Err e)
      | Some (p, Ok files) =>
          subfolders_loop recurse rest (all_files ++ files) (printed ++ p)
      end
  end.

(** [list_files_recursive], with [fuel] for the depth of the recursion:
    [None] when [fuel] calls deep were not enough. *)
Fixpoint list_files_recursive (fuel : nat)
  (strptime : string -> string -> option Z) (self : WimiFileSource)
  (drive : Drive) (wimi_project : string) (folder_id : option Z)
  : option listing_result :=
  match fuel with
  | O => None
  | S fuel' =>
      match list_files_of strptime self drive wimi_project folder_id with
      | (printed, Err e) => Some (printed, Err e)
      | (printed, Ok files) =>
          subfolders_loop
            (fun subfolder_id =>
               list_files_recursive fuel' strptime self drive wimi_project
                 (Some subfolder_id))
            (list_folders drive wimi_project folder_id) files printed
      end
  end.

(** A listing continued from the documents and lines of an earlier one. *)
Definition continued (files : list Document) (printed : list message)
  (r : listing_result) : listing_result :=
  (printed ++ fst r,
   match snd r with
   | Ok docs => Ok (files ++ docs)
   | Err e => Err e
   end).

(** What [retrieve_files_from_folder] prints. *)
Inductive retrieval_line : Type :=
| FromListing (m : message)
| FolderNotFound (folder_name : string)
| AvailableDocuments
| Available (doc : Document).

(** The first part of [retrieve_files_from_folder]: "root" is the top
    level, any other name is looked up among the folders of the top level
    and the first of that name is taken. *)
Definition resolve_folder (drive : Drive) (wimi_project : string)
  (folder_identifier_or_name : string) : result (option Z) :=
  if String.eqb folder_identifier_or_name "root" then Ok None
  else
    let folders := list_folders drive wimi_project None in
    let matching :=
      map snd (filter (fun f => String.eqb (fst f) folder_identifier_or_name)
                      folders) in
    match py_index matching 0 with
    | Ok folder_id => Ok (Some folder_id)
    | Err _ => Err IndexError
    end.

Definition retrieve_files_from_folder (fuel : nat)
  (strptime : string -> string -> option Z) (file_source : WimiFileSource)
  (drive : Drive) (wimi_project folder_identifier_or_name : string)
  (include_subfolders verbose : bool)
  : option (list retrieval_line * result (list Document)) :=
  match resolve_folder drive wimi_project folder_identifier_or_name with
  | Err e => Some ([FolderNotFound folder_identifier_or_name], Err e)
  | Ok folder_identifier =>
      let listed :=
        if include_subfolders then
          list_files_recursive fuel strptime file_source drive wimi_project
            folder_identifier
        else
          Some (list_files_of strptime file_source drive wimi_project
                  folder_identifier) in
      match listed with
      | None => None
      | Some (printed, Err e) => Some (map FromListing printed, Err e)
      | Some (printed, Ok available_documents) =>
          Some (map FromListing printed ++
                (if verbose then
                   AvailableDocuments :: map Available available_documents
                 else []),
                Ok available_documents)
      end
  end.

(** The entries of a folder and of the folders below it, depth first, down
    to [fuel] levels. *)
Fixpoint subtree_entries (fuel : nat) (drive : Drive) (wimi_project : string)
  (folder_id : option Z) : list FileEntry :=
  match fuel with
  | O => []
  | S fuel' =>
      answer_files (drive wimi_project (sent_dir_id folder_id)) ++
      flat_map (fun f => subtree_entries fuel' drive wimi_project (Some (snd f)))
               (list_folders drive wimi_project folder_id)
  end.

(** No chain of sub-folders from [folder_id] is longer than [depth]. *)
Inductive within (drive : Drive) (wimi_project : string)
  : nat -> option Z -> Prop :=
| within_folder depth folder_id :
    (forall folder_name subfolder_id,
       In (folder_name, subfolder_id) (list_folders drive wimi_project folder_id) ->
       within drive wimi_project depth (Some subfolder_id)) ->
    within drive wimi_project (S depth) folder_id.

(** *** [DifyKnowledgeClient.get_existing_documents], page by page *)

Module Paging.

(** One page of the answer: its [data] and its [has_more], which may be
    missing. *)
Record Page : Type := mkPage {
  page_data : list Document;
  page_has_more : option bool
}.

(** The sink: the page it answers for a page number, when the status is
    200. *)
Definition Sink : Type := nat -> option Page.

(** [response.json().get('has_more', False)]. *)
Definition has_more (p : Page) : bool :=
  match page_has_more p with
  | Some b => b
  | None => false
  end.

(** The loop [while has_more], with [fuel] for its number of turns.  It
    returns the page numbers it asked for and its outcome; [None] when
    [fuel] turns were not enough. *)
Fixpoint pages_loop (fuel : nat) (sink : Sink) (page : nat)
  (documents : list Document) (asked : list nat)
  : option (list nat * result (list Document)) :=
  match fuel with
  | O => None
  | S fuel' =>
      match sink page with
      | Some p =>
          if has_more p then
            pages_loop fuel' sink (S page) (documents ++ page_data p)
                       (asked ++ [page])
          else Some (asked ++ [page], Ok (documents ++ page_data p))
      | None =>
          Some (asked ++ [page],
                Err (Exception_ "Failed to fetch existing documents"))
      end
  end.

(** The documents are those the loop has put in the set, in the order it
    read them; the order of a later loop over the set is a [SetOrder]. *)
Definition get_existing_documents (fuel : nat) (sink : Sink)
  : option (list nat * result (list Document)) :=
  pages_loop fuel sink 1 [] [].

(** The documents of the pages [first], ..., [first + count - 1]. *)
Definition pages_data (sink : Sink) (first count : nat) : list Document :=
  flat_map (fun k => match sink k with
                     | Some p => page_data p
                     | None => []
                     end)
           (seq first count).

End Paging.

(** *** [DifyKnowledgeClient.get_or_create_knowledge] *)

Inductive knowledge_step : Type :=
| GetDatasets
| FoundKnowledgeBase (knowledge_name : string)
| CreatingNewKnowledge (knowledge_name : string)
| PostDataset (knowledge_name : string).

(** The loop over the datasets of the answer, each a [name] and an [id]. *)
Fixpoint find_dataset (datasets : list (string * string)) (wanted : string)
  : option string :=
  match datasets with
  | [] => None
  | (dataset_name, dataset_id) :: rest =>
      if String.eqb dataset_name wanted then Some dataset_id
      else find_dataset rest wanted
  end.

(** [listed] is the [data] of the answer to the listing when its status is
    200, [created] the [id] of the answer to the creation when its status
    is 200 or 201. *)
Definition get_or_create_knowledge (listed : option (list (string * string)))
  (created : option string) (knowledge_name : string)
  : list knowledge_step * result string :=
  let create :=
    ([CreatingNewKnowledge knowledge_name; PostDataset knowledge_name],
     match created with
     | Some dataset_id => Ok dataset_id
     | None => Err (Exception_ "Failed to create knowledge base:")
     end) in
  match listed with
  | Some datasets =>
      match find_dataset datasets knowledge_name with
      | Some dataset_id =>
          ([GetDatasets; FoundKnowledgeBase knowledge_name], Ok dataset_id)
      | None => (GetDatasets :: fst create, snd create)
      end
  | None => (GetDatasets :: fst create, snd create)
  end.

(** *** The pairing of folders and workspaces in the main program *)

(** [str.isspace] on code points below 256, and [str.strip]. *)
Definition space_char (a : ascii) : bool :=
  let n := nat_of_ascii a in
  ((9 <=? n) && (n <=? 13) || (28 <=? n) && (n <=? 32) || (n =? 133)
   || (n =? 160))%nat.

Fixpoint lstrip (s : string) : string :=
  match s with
  | EmptyString => EmptyString
  | String a s' => if space_char a then lstrip s' else s
  end.

Fixpoint rstrip (s : string) : string :=
  match s with
  | EmptyString => EmptyString
  | String a s' =>
      match rstrip s' with
      | EmptyString => if space_char a then EmptyString else String a EmptyString
      | rest => String a rest
      end
  end.

Definition strip (s : string) : string := rstrip (lstrip s).

Definition comma : ascii := ","%char.

(** The two lists the main program zips: the folders, each stripped, and
    the workspaces, which are the one workspace as typed, once per folder,
    or the stripped items of the list. *)
Definition folder_identifiers_or_names (folders : string) : list string :=
  map strip (Str.split comma folders).

Definition workspaces_input (folders workspace : string) : list string :=
  if (List.length (Str.split comma workspace) =? 1)%nat
  then repeat workspace (List.length (folder_identifiers_or_names folders))
  else map strip (Str.split comma workspace).

Definition folder_pairs (folders workspace : string) : list (string * string) :=
  combine (workspaces_input folders workspace)
          (folder_identifiers_or_names folders).

(** ** Further sample inputs *)

(** A project with a file at the top level, a folder [Reports] that holds a
    file of the same name and a folder [Deep], and an empty folder [Old]. *)
Definition sample_drive : Drive :=
  fun _ dir_id =>
    match dir_id with
    | None =>
        mkAnswer [mkFileEntry "a.pdf" "pdf" "501" "2024-01-02 03:04:05"]
                 [("Reports", 5); ("Old", 6)]
    | Some 5 =>
        mkAnswer [mkFileEntry "a.pdf" "pdf" "502" "2024-01-02 03:04:05"]
                 [("Deep", 8)]
    | Some 8 =>
        mkAnswer [mkFileEntry "notes.xyz" "xyz" "503" "2024-01-02 03:04:05"] []
    | Some _ => mkAnswer [] []
    end.

(** A project whose top level lists a folder with the [dir_id] 0. *)
Definition zero_drive : Drive :=
  fun _ dir_id =>
    match dir_id with
    | None =>
        mkAnswer [mkFileEntry "a.pdf" "pdf" "501" "2024-01-02 03:04:05"]
                 [("Zero", 0)]
    | Some _ => mkAnswer [] []
    end.

(** A sink whose every page carries one document and says there are more. *)
Definition endless_pages : Paging.Sink :=
  fun page => Some (Paging.mkPage [existing "a.pdf" "s1" 50] (Some true)).

(** A sink that answers two pages and says there are no more. *)
Definition two_pages : Paging.Sink :=
  fun page =>
    match page with
    | 1%nat => Some (Paging.mkPage [existing "a.pdf" "s1" 50] (Some true))
    | 2%nat => Some (Paging.mkPage [existing "b.pdf" "s2" 60] None)
    | _ => None
    end.

(** * Properties *)

(** ** Strings *)

Module StrFacts.
Import Str.

Lemma append_assoc (s1 s2 s3 : string) :
  ((s1 ++ s2) ++ s3 = s1 ++ (s2 ++ s3))%string.
Proof. induction s1 as [|a s1 IH]; simpl; [reflexivity|now rewrite IH]. Qed.

Lemma append_empty_r (s : string) : (s ++ EmptyString)%string = s.
Proof. induction s as [|a s IH]; simpl; [reflexivity|now rewrite IH]. Qed.

Lemma split_not_nil c s : split c s <> [].
Proof.
  destruct s as [|a s]; simpl; [discriminate|].
  destruct (Ascii.eqb a c); [discriminate|].
  destruct (split c s); discriminate.
Qed.

Lemma join_cons c x y rest :
  join c (x :: y :: rest) = (x ++ String c (join c (y :: rest)))%string.
Proof. reflexivity. Qed.

(** Joining what [split] gave returns the string. *)
Lemma join_split c s : join c (split c s) = s.
Proof.
  induction s as [|a s IH]; [reflexivity|].
  simpl split. destruct (Ascii.eqb a c) eqn:E.
  - apply Ascii.eqb_eq in E; subst a.
    destruct (split c s) as [|h t] eqn:Hs; [now apply split_not_nil in Hs|].
    rewrite join_cons, IH. reflexivity.
  - destruct (split c s) as [|h t] eqn:Hs; [now apply split_not_nil in Hs|].
    destruct t as [|h' t]; simpl in *; now rewrite <- IH.
Qed.

Lemma has_char_cons c a s :
  has_char c (String a s) = false -> a <> c /\ has_char c s = false.
Proof.
  unfold has_char; simpl.
  destruct (0 <=? rfind c s) eqn:E.
  - intros H. apply Z.leb_gt in H. apply Z.leb_le in E. lia.
  - destruct (Ascii.eqb a c) eqn:Ea; [discriminate|].
    intros _. split; [|reflexivity]. now apply Ascii.eqb_neq.
Qed.

Lemma split_no_sep c s : has_char c s = false -> split c s = [s].
Proof.
  induction s as [|a s IH]; [reflexivity|].
  intros H. apply has_char_cons in H as [Ha Hs].
  simpl. apply Ascii.eqb_neq in Ha. rewrite Ha, (IH Hs). reflexivity.
Qed.

Lemma split_app_sep c x s :
  has_char c x = false ->
  split c (x ++ String c s) = x :: split c s.
Proof.
  induction x as [|a x IH]; intros H.
  - simpl. now rewrite Ascii.eqb_refl.
  - apply has_char_cons in H as [Ha Hx].
    simpl. apply Ascii.eqb_neq in Ha. rewrite Ha, (IH Hx). reflexivity.
Qed.

(** Splitting what [join] made of dot-free segments returns the segments. *)
Lemma split_join c parts :
  parts <> [] ->
  Forall (fun p => has_char c p = false) parts ->
  split c (join c parts) = parts.
Proof.
  induction parts as [|x rest IH]; [congruence|].
  intros _ H. inversion H as [|? ? Hx Hrest]; subst.
  destruct rest as [|y rest]; [now apply split_no_sep|].
  rewrite join_cons, split_app_sep by assumption.
  f_equal. apply IH; [discriminate|assumption].
Qed.

(** [join] of a list extended by one segment. *)
Lemma join_snoc c l x :
  l <> [] -> join c (l ++ [x]) = (join c l ++ String c x)%string.
Proof.
  induction l as [|y l IH]; [congruence|]. intros _.
  destruct l as [|z l]; [reflexivity|].
  change ((y :: z :: l) ++ [x]) with (y :: (z :: l) ++ [x]).
  change ((z :: l) ++ [x]) with (z :: l ++ [x]) at 1.
  rewrite !join_cons.
  change (z :: l ++ [x]) with ((z :: l) ++ [x]).
  rewrite IH by discriminate.
  rewrite append_assoc. reflexivity.
Qed.

End StrFacts.

Example split_report : Str.split extsep "report.pdf.pdf" = ["report"; "pdf"; "pdf"].
Proof. reflexivity. Qed.

Example split_dots : Str.split extsep ".." = [EmptyString; EmptyString; EmptyString].
Proof. reflexivity. Qed.

(** ** The loop of [remove_multiple_extensions] *)

Lemma py_index_last {A} (l : list A) (a : A) :
  py_index (l ++ [a]) (-1) = Ok a.
Proof.
  unfold py_index. rewrite length_app. simpl List.length.
  replace (-1 <? 0) with true by reflexivity.
  destruct (-1 + Z.of_nat (List.length l + 1) <? 0) eqn:E; [apply Z.ltb_lt in E; lia|].
  replace (Z.to_nat (-1 + Z.of_nat (List.length l + 1))) with (List.length l) by lia.
  rewrite nth_error_app2 by lia. rewrite Nat.sub_diag. reflexivity.
Qed.

Lemma py_index_last_of_two {A} (l : list A) (b a : A) :
  py_index (l ++ [b; a]) (-1) = Ok a.
Proof.
  change [b; a] with ([b] ++ [a]). rewrite app_assoc. apply py_index_last.
Qed.

Lemma py_index_before_last {A} (l : list A) (b a : A) :
  py_index (l ++ [b; a]) (-2) = Ok b.
Proof.
  unfold py_index. rewrite length_app. simpl List.length.
  replace (-2 <? 0) with true by reflexivity.
  destruct (-2 + Z.of_nat (List.length l + 2) <? 0) eqn:E; [apply Z.ltb_lt in E; lia|].
  replace (Z.to_nat (-2 + Z.of_nat (List.length l + 2))) with (List.length l) by lia.
  rewrite nth_error_app2 by lia. rewrite Nat.sub_diag. reflexivity.
Qed.

Lemma py_init_snoc {A} (l : list A) (a : A) : py_init (l ++ [a]) = l.
Proof. apply removelast_last. Qed.

(** One turn of the loop on a list of at least two segments. *)
Lemma collapse_loop_step parts : forall l b a, parts = l ++ [b; a] ->
  collapse_loop parts =
  if String.eqb a b then collapse_loop (l ++ [b]) else Ok (l ++ [b; a]).
Proof.
  funelim (collapse_loop parts); intros l b' a' ->.
  all: clear Heqcall.
  all: repeat match goal with
       | H : sigmaI _ _ _ = _ |- _ => clear H
       | e : py_index _ (-1) = _ |- _ =>
           rewrite py_index_last_of_two in e; inversion e; subst; clear e
       | e : py_index _ (-2) = _ |- _ =>
           rewrite py_index_before_last in e; inversion e; subst; clear e
       end.
  - rewrite Heq. change [b; a] with ([b] ++ [a]).
    rewrite app_assoc, py_init_snoc. reflexivity.
  - rewrite Heq. reflexivity.
Qed.

Lemma collapse_loop_two l b a :
  collapse_loop (l ++ [b; a]) =
  if String.eqb a b then collapse_loop (l ++ [b]) else Ok (l ++ [b; a]).
Proof. now apply collapse_loop_step. Qed.

(** On a single segment the loop reads [parts[-2]] and fails. *)
Lemma collapse_loop_one a : collapse_loop [a] = Err IndexError.
Proof. reflexivity. Qed.

Lemma repeat_snoc {A} (x : A) n : repeat x (S n) = repeat x n ++ [x].
Proof. induction n as [|n IH]; [reflexivity|]. simpl in *. now rewrite <- IH. Qed.

(** Identical segments are stripped down to one, and then the loop fails. *)
Lemma collapse_loop_all_equal x n :
  collapse_loop (repeat x (S n)) = Err IndexError.
Proof.
  induction n as [|n IH]; [reflexivity|].
  rewrite 2 repeat_snoc, <- app_assoc. simpl app.
  rewrite collapse_loop_two, String.eqb_refl, <- repeat_snoc. exact IH.
Qed.

(** What the loop returns when it returns: the segments without the trailing
    copies of the last one, which then differs from the one before it. *)
Lemma collapse_loop_ok parts : forall r,
  collapse_loop parts = Ok r ->
  exists pre y x k, y <> x /\ r = pre ++ [y; x] /\ parts = r ++ repeat x k.
Proof.
  induction parts as [|a l IH] using rev_ind; intros r H.
  - discriminate.
  - destruct l as [|b l _] using rev_ind; [discriminate|].
    rewrite <- app_assoc in H. simpl in H.
    rewrite collapse_loop_two in H.
    destruct (String.eqb a b) eqn:E.
    + apply String.eqb_eq in E; subst a.
      destruct (IH _ H) as (pre & y & x & k & Hyx & Hr & Hl).
      assert (b = x) as ->.
      { destruct k as [|k].
        - simpl in Hl. rewrite app_nil_r in Hl. subst r.
          change [y; x] with ([y] ++ [x]) in Hl. rewrite app_assoc in Hl.
          now apply app_inj_tail in Hl.
        - rewrite repeat_snoc, app_assoc in Hl. now apply app_inj_tail in Hl. }
      exists pre, y, x, (S k). split; [assumption|]. split; [assumption|].
      rewrite Hl. rewrite <- app_assoc. f_equal. symmetry. apply repeat_snoc.
    + injection H as <-. apply String.eqb_neq in E.
      exists l, b, a, 0%nat. split; [congruence|]. split; [reflexivity|].
      simpl. now rewrite app_nil_r, <- app_assoc.
Qed.

Lemma join_app_repeat c r x k :
  r <> [] ->
  Str.join c (r ++ repeat x k) =
  (Str.join c r ++ repeat_string (String c x) k)%string.
Proof.
  intros Hr. induction k as [|k IH].
  - simpl. now rewrite app_nil_r, StrFacts.append_empty_r.
  - rewrite repeat_snoc, app_assoc, StrFacts.join_snoc.
    + rewrite IH. simpl. now rewrite StrFacts.append_assoc.
    + destruct r; [congruence|discriminate].
Qed.

Lemma has_char_cons_false c a s :
  a <> c -> Str.has_char c s = false -> Str.has_char c (String a s) = false.
Proof.
  unfold Str.has_char. simpl. intros Ha Hs. rewrite Hs.
  apply Ascii.eqb_neq in Ha. now rewrite Ha.
Qed.

(** No segment [split] returns contains the separator. *)
Lemma split_segments_no_sep c s :
  Forall (fun p => Str.has_char c p = false) (Str.split c s).
Proof.
  induction s as [|a s IH]; simpl; [repeat constructor|].
  destruct (Ascii.eqb a c) eqn:E.
  - constructor; [reflexivity|exact IH].
  - apply Ascii.eqb_neq in E.
    destruct (Str.split c s) as [|h t]; [repeat constructor; now apply has_char_cons_false|].
    inversion IH; subst. constructor; [|assumption].
    now apply has_char_cons_false.
Qed.

(** [remove_multiple_extensions] drops the trailing copies of the last
    segment and nothing else: the name is the result followed by [k] times
    [.ext]; a name of at most two segments is returned as it is, and the
    result for a longer one ends in [.ext] after a segment other than
    [ext], so that no repetition is left at its end. *)
Lemma remove_multiple_extensions_ok filename key :
  remove_multiple_extensions filename = Ok key ->
  exists k ext,
    filename = (key ++ repeat_string (String extsep ext) k)%string /\
    (k <> 0%nat -> exists stem, key = (stem ++ String extsep ext)%string) /\
    ((List.length (Str.split extsep filename) <= 2)%nat /\ k = 0%nat \/
     (2 < List.length (Str.split extsep filename))%nat /\
     exists pre y, y <> ext /\ Str.split extsep key = pre ++ [y; ext]).
Proof.
  unfold remove_multiple_extensions.
  destruct (Nat.ltb_spec 2 (List.length (Str.split extsep filename)))
    as [Hlen|Hlen].
  - destruct (collapse_loop (Str.split extsep filename)) as [r|e] eqn:Hloop;
      simpl; [|discriminate].
    intros [= <-].
    destruct (collapse_loop_ok _ Hloop) as (pre & y & x & k & Hyx & Hr & Hparts).
    exists k, x. split; [|split].
    + rewrite <- (StrFacts.join_split extsep filename) at 1.
      rewrite Hparts. apply join_app_repeat.
      subst r. destruct pre; discriminate.
    + intros _. subst r. exists (Str.join extsep (pre ++ [y])).
      change [y; x] with ([y] ++ [x]). rewrite app_assoc.
      apply StrFacts.join_snoc. destruct pre; discriminate.
    + right. split; [exact Hlen|]. exists pre, y. split; [exact Hyx|].
      rewrite <- Hr. apply StrFacts.split_join.
      * subst r. destruct pre; discriminate.
      * pose proof (split_segments_no_sep extsep filename) as Hall.
        rewrite Hparts in Hall. now apply Forall_app in Hall.
  - intros [= <-]. exists 0%nat, EmptyString. split; [|split].
    + simpl. now rewrite StrFacts.append_empty_r.
    + congruence.
    + left. now split.
Qed.

Example remove_multiple_extensions_report :
  remove_multiple_extensions "report.pdf.pdf" = Ok "report.pdf".
Proof. reflexivity. Qed.

Example remove_multiple_extensions_archive :
  remove_multiple_extensions "a.b.tar.gz.gz.gz" = Ok "a.b.tar.gz".
Proof. reflexivity. Qed.

Example remove_multiple_extensions_two_parts :
  remove_multiple_extensions "pdf.pdf" = Ok "pdf.pdf".
Proof. reflexivity. Qed.

Example remove_multiple_extensions_three_parts :
  remove_multiple_extensions "pdf.pdf.pdf" = Err IndexError.
Proof. reflexivity. Qed.

(** ** The listing loop *)

Section Listing.
Variable strptime : string -> string -> option Z.
Variable self : WimiFileSource.
Variable project_id : string.

(** When the loop returns a list, it has appended one document per supported
    entry, in order, and printed one line per other entry. *)
Lemma list_files_loop_ok files_dicts : forall files printed printed' files',
  list_files_loop strptime self project_id files_dicts files printed
    = (printed', Ok files') ->
  exists new,
    files' = files ++ new /\
    Forall2 (ingested strptime project_id) new
            (filter (entry_supported self) files_dicts) /\
    printed' = printed ++ not_supported_messages self files_dicts.
Proof.
  unfold not_supported_messages.
  induction files_dicts as [|d rest IH]; intros files printed printed' files' H.
  - injection H as <- <-. exists []. now rewrite !app_nil_r.
  - cbn [list_files_loop] in H. cbn [filter].
    change (py_in ("." ++ entry_extension d)%string (extensions self))
      with (entry_supported self d) in H.
    destruct (entry_supported self d) eqn:Hs; cbn [negb map].
    + destruct (remove_multiple_extensions (entry_name d)) as [n|e] eqn:Hn;
        [|discriminate].
      destruct (convert_to_timestamp strptime (entry_date d)) as [t|e] eqn:Ht;
        [|discriminate].
      destruct (IH _ _ _ _ H) as (new & -> & Hnew & ->).
      exists (mkDocument n (entry_file_id d) t None (Some project_id) :: new).
      split; [now rewrite <- app_assoc|]. split; [|reflexivity].
      constructor; [|assumption]. now repeat split.
    + destruct (IH _ _ _ _ H) as (new & -> & Hnew & ->).
      exists new. split; [reflexivity|]. split; [assumption|].
      now rewrite <- app_assoc.
Qed.

(** The loop returns a list as soon as every supported entry has a name
    that normalises and a date that parses. *)
Lemma list_files_loop_total files_dicts : forall files printed,
  (forall d, In d files_dicts -> entry_supported self d = true ->
     (exists n, remove_multiple_extensions (entry_name d) = Ok n) /\
     (exists t, convert_to_timestamp strptime (entry_date d) = Ok t)) ->
  exists printed' files',
    list_files_loop strptime self project_id files_dicts files printed
      = (printed', Ok files').
Proof.
  induction files_dicts as [|d rest IH]; intros files printed H.
  - now exists printed, files.
  - cbn [list_files_loop].
    change (py_in ("." ++ entry_extension d)%string (extensions self))
      with (entry_supported self d).
    destruct (entry_supported self d) eqn:Hs.
    + destruct (H d (or_introl eq_refl) Hs) as [[n ->] [t ->]].
      apply IH. intros d' Hd'. apply H. now right.
    + apply IH. intros d' Hd'. apply H. now right.
Qed.

End Listing.

(** ** Ingestion: filtering and normalisation *)

(** C10.  A folder listing keeps exactly the entries whose dotted extension
    is, letter for letter, in the extension list the source object was built
    with: as soon as the names and dates of those entries can be read, the
    listing returns one document per such entry, in order, prints one line
    per other entry, and no other entry yields a document.  The list is
    fixed when the source object is built and is one of the two constants. *)
Theorem list_files_keeps_supported_extensions
  (strptime : string -> string -> option Z) (self : WimiFileSource)
  (project_id : string) (files_dicts : list FileEntry) :
  (forall d, In d files_dicts -> entry_supported self d = true ->
     (exists n, remove_multiple_extensions (entry_name d) = Ok n) /\
     (exists t, convert_to_timestamp strptime (entry_date d) = Ok t)) ->
  exists printed files,
    list_files strptime self project_id files_dicts = (printed, Ok files) /\
    Forall2 (ingested strptime project_id) files
            (filter (entry_supported self) files_dicts) /\
    printed = not_supported_messages self files_dicts /\
    (forall d, In d files_dicts ->
       (In d (filter (entry_supported self) files_dicts) <->
        py_in ("." ++ entry_extension d)%string (extensions self) = true) /\
       (entry_supported self d = false ->
        In (MsgNotSupportedFile (entry_name d)) printed)) /\
    (forall getenv,
       extensions (WimiFileSource_init getenv) = SUPPORTED_EXTENSIONS_UNSTRUCTURED \/
       extensions (WimiFileSource_init getenv) = SUPPORTED_EXTENSIONS_DIFY).
Proof.
  intros H.
  destruct (list_files_loop_total strptime self project_id files_dicts [] [] H)
    as (printed & files & Hrun).
  exists printed, files. split; [exact Hrun|].
  destruct (list_files_loop_ok _ _ _ _ _ _ Hrun) as (new & -> & Hnew & ->).
  split; [exact Hnew|]. split; [reflexivity|]. split.
  - intros d Hd. split.
    + rewrite filter_In. unfold entry_supported. tauto.
    + intros Hs. simpl. unfold not_supported_messages.
      apply (in_map (fun d => MsgNotSupportedFile (entry_name d))).
      apply filter_In. split; [assumption|]. now rewrite Hs.
  - intros [[|a s]|]; simpl; auto.
Qed.

Lemma list_files_keeps_supported_extensions_witness :
  exists printed files,
    list_files sample_strptime (WimiFileSource_init None) "7" two_entries
      = (printed, Ok files) /\
    Forall2 (ingested sample_strptime "7") files
            (filter (entry_supported (WimiFileSource_init None)) two_entries) /\
    printed = not_supported_messages (WimiFileSource_init None) two_entries /\
    (forall d, In d two_entries ->
       (In d (filter (entry_supported (WimiFileSource_init None)) two_entries) <->
        py_in ("." ++ entry_extension d)%string
              (extensions (WimiFileSource_init None)) = true) /\
       (entry_supported (WimiFileSource_init None) d = false ->
        In (MsgNotSupportedFile (entry_name d)) printed)) /\
    (forall getenv,
       extensions (WimiFileSource_init getenv) = SUPPORTED_EXTENSIONS_UNSTRUCTURED \/
       extensions (WimiFileSource_init getenv) = SUPPORTED_EXTENSIONS_DIFY).
Proof.
  apply list_files_keeps_supported_extensions.
  intros d [<-|[<-|[]]] Hs.
  - split; eexists; reflexivity.
  - discriminate Hs.
Defined.

(** The upper-case extension of the second entry is not in the list. *)
Example list_files_two_entries :
  list_files sample_strptime (WimiFileSource_init None) "7" two_entries
  = ([MsgNotSupportedFile "Scan.PDF"],
     Ok [mkDocument "notes.txt" "11" 1704164645 None (Some "7")]).
Proof. reflexivity. Qed.

(** C6, as stated, fails: the names of two entries that differ by letter
    case only are ingested under two different keys. *)
Lemma keys_keep_letter_case :
  casefold "Report.pdf.pdf" = casefold "report.pdf.pdf" /\
  exists d1 d2,
    snd (list_files sample_strptime (WimiFileSource_init None) "7"
           mixed_case_entries) = Ok [d1; d2] /\
    name d1 = "Report.pdf" /\ name d2 = "report.pdf" /\ name d1 <> name d2.
Proof.
  split; [reflexivity|].
  eexists _, _. split; [reflexivity|]. repeat split. discriminate.
Qed.

(** C6, amended.  Every entry a listing keeps is named by one application
    of [remove_multiple_extensions] to its file name, which drops the
    trailing repetitions of the last extension and nothing else: the file
    name is the key followed by [k] more copies of [.ext], the key ends in
    [.ext] when anything was dropped, and no letter changes case.  No
    repetition is left: a file name of at most two segments is kept as it
    is, and the key of a longer one ends in [.ext] after a segment other
    than [ext]. *)
Theorem ingestion_collapses_trailing_extensions
  (strptime : string -> string -> option Z) (self : WimiFileSource)
  (project_id : string) (files_dicts : list FileEntry)
  (printed : list message) (files : list Document) :
  list_files strptime self project_id files_dicts = (printed, Ok files) ->
  Forall2 (fun doc d =>
             remove_multiple_extensions (entry_name d) = Ok (name doc) /\
             exists k ext,
               entry_name d
                 = (name doc ++ repeat_string (String extsep ext) k)%string /\
               (k <> 0%nat ->
                exists stem, name doc = (stem ++ String extsep ext)%string) /\
               ((List.length (Str.split extsep (entry_name d)) <= 2)%nat /\
                k = 0%nat \/
                (2 < List.length (Str.split extsep (entry_name d)))%nat /\
                exists pre y,
                  y <> ext /\
                  Str.split extsep (name doc) = pre ++ [y; ext]))
          files (filter (entry_supported self) files_dicts) /\
  remove_multiple_extensions "report.pdf.pdf" = Ok "report.pdf".
Proof.
  intros Hrun. split; [|reflexivity].
  destruct (list_files_loop_ok _ _ _ _ _ _ Hrun) as (new & -> & Hnew & _).
  simpl. clear Hrun. eapply Forall2_impl; [|exact Hnew].
  intros doc d (Hname & _). split; [exact Hname|].
  now apply remove_multiple_extensions_ok.
Qed.

Lemma ingestion_collapses_trailing_extensions_witness :
  Forall2 (fun doc d =>
             remove_multiple_extensions (entry_name d) = Ok (name doc) /\
             exists k ext,
               entry_name d
                 = (name doc ++ repeat_string (String extsep ext) k)%string /\
               (k <> 0%nat ->
                exists stem, name doc = (stem ++ String extsep ext)%string) /\
               ((List.length (Str.split extsep (entry_name d)) <= 2)%nat /\
                k = 0%nat \/
                (2 < List.length (Str.split extsep (entry_name d)))%nat /\
                exists pre y,
                  y <> ext /\
                  Str.split extsep (name doc) = pre ++ [y; ext]))
          [mkDocument "report.v2.pdf" "31" 1704164645 None (Some "7")]
          (filter (entry_supported (WimiFileSource_init None)) tripled_entries) /\
  remove_multiple_extensions "report.pdf.pdf" = Ok "report.pdf".
Proof.
  apply (@ingestion_collapses_trailing_extensions sample_strptime
           (WimiFileSource_init None) "7" tripled_entries []).
  reflexivity.
Defined.

(** The trailing repetitions all go, however many there are. *)
Example list_files_tripled_entries :
  list_files sample_strptime (WimiFileSource_init None) "7" tripled_entries
  = ([], Ok [mkDocument "report.v2.pdf" "31" 1704164645 None (Some "7")]).
Proof. reflexivity. Qed.

(** C7.  A file name made of three or more copies of one dot-free segment
    makes [remove_multiple_extensions] raise [IndexError]: the loop strips
    the copies down to one and then reads [parts[-2]].  A listing that
    contains such a name under a supported extension raises it too. *)
Theorem identical_segments_raise_IndexError
  (segment : string) (n : nat) :
  Str.has_char extsep segment = false ->
  (3 <= n)%nat ->
  remove_multiple_extensions (Str.join extsep (repeat segment n))
    = Err IndexError /\
  forall strptime self project_id extension file_id date_str rest,
    py_in ("." ++ extension)%string (extensions self) = true ->
    snd (list_files strptime self project_id
           (mkFileEntry (Str.join extsep (repeat segment n))
                        extension file_id date_str :: rest))
    = Err IndexError.
Proof.
  intros Hseg Hn.
  assert (Hrme : remove_multiple_extensions (Str.join extsep (repeat segment n))
                 = Err IndexError).
  { unfold remove_multiple_extensions.
    rewrite StrFacts.split_join.
    - rewrite repeat_length.
      destruct (Nat.ltb_spec 2 n) as [_|]; [|lia].
      destruct n as [|n]; [lia|].
      now rewrite collapse_loop_all_equal.
    - destruct n; [lia|discriminate].
    - apply Forall_forall. intros p Hp. apply repeat_spec in Hp. now subst. }
  split; [exact Hrme|].
  intros strptime self project_id extension file_id date_str rest Hext.
  unfold list_files. cbn [list_files_loop entry_extension entry_name].
  now rewrite Hext, Hrme.
Qed.

Lemma identical_segments_raise_IndexError_witness :
  remove_multiple_extensions (Str.join extsep (repeat "pdf" 3))
    = Err IndexError /\
  forall strptime self project_id extension file_id date_str rest,
    py_in ("." ++ extension)%string (extensions self) = true ->
    snd (list_files strptime self project_id
           (mkFileEntry (Str.join extsep (repeat "pdf" 3))
                        extension file_id date_str :: rest))
    = Err IndexError.
Proof.
  apply (@identical_segments_raise_IndexError "pdf" 3); [reflexivity|lia].
Defined.

(** ** What [splitext] returns as the extension *)

Example splitext_pdf : splitext "a.pdf" = ("a", ".pdf").
Proof. reflexivity. Qed.

Example splitext_hidden : splitext ".bashrc" = (".bashrc", EmptyString).
Proof. reflexivity. Qed.

Example splitext_directory : splitext "a.b/c" = ("a.b/c", EmptyString).
Proof. reflexivity. Qed.

Example splitext_leading_dots : splitext "/x/...y.tar.gz" = ("/x/...y.tar", ".gz").
Proof. reflexivity. Qed.

Lemma rfind_drop c p :
  0 <= Str.rfind c p ->
  exists s, Str.drop (Z.to_nat (Str.rfind c p)) p = String c s.
Proof.
  induction p as [|a p IH]; simpl; [lia|].
  destruct (0 <=? Str.rfind c p) eqn:E.
  - apply Z.leb_le in E. intros _.
    replace (Z.to_nat (Str.rfind c p + 1)) with (S (Z.to_nat (Str.rfind c p))) by lia.
    simpl. now apply IH.
  - destruct (Ascii.eqb a c) eqn:Ea; [|lia].
    apply Ascii.eqb_eq in Ea; subst a. intros _. now exists p.
Qed.

Lemma splitext_scan_ext p d n : forall fi,
  snd (splitext_scan p d fi n) = EmptyString \/
  snd (splitext_scan p d fi n) = Str.drop d p.
Proof.
  induction n as [|n IH]; intros fi; simpl; [now left|].
  destruct (negb _); [now right|apply IH].
Qed.

(** The extension is empty or starts with the dot it was cut at. *)
Lemma splitext_ext p :
  snd (splitext p) = EmptyString \/
  exists s, snd (splitext p) = String extsep s.
Proof.
  unfold splitext.
  destruct (Str.rfind sep p <? Str.rfind extsep p) eqn:E; [|now left].
  apply Z.ltb_lt in E.
  assert (Hsep : -1 <= Str.rfind sep p).
  { clear. induction p as [|a p IH]; simpl; [lia|].
    destruct (0 <=? Str.rfind sep p) eqn:E; [apply Z.leb_le in E; lia|].
    destruct (Ascii.eqb a sep); lia. }
  destruct (splitext_scan_ext p (Z.to_nat (Str.rfind extsep p))
              (Z.to_nat (Str.rfind extsep p - (Str.rfind sep p + 1)))
              (Z.to_nat (Str.rfind sep p + 1))) as [H|H];
    rewrite H; [now left|right].
  apply rfind_drop. lia.
Qed.

(** With one more dot in front, it is never one of the listed extensions. *)
Lemma dotted_splitext_not_supported p :
  py_in ("." ++ snd (splitext p))%string SUPPORTED_EXTENSIONS_UNSTRUCTURED = false.
Proof.
  destruct (splitext_ext p) as [->|[s ->]]; reflexivity.
Qed.

(** ** The store of streams *)

(** A stream that was just made has all its bytes to read; once read, it
    has none. *)
Lemma unread_new streams bytes :
  unread (length streams) (streams ++ [bytes]) = bytes.
Proof. unfold unread. now rewrite nth_middle. Qed.

Lemma unread_exhaust stream streams :
  unread stream (exhaust stream streams) = EmptyString.
Proof.
  unfold unread. revert stream.
  induction streams as [|c streams IH]; intros [|stream]; simpl; auto.
Qed.

(** ** Traces of computations *)

Section TraceFacts.
Context {W : Type}.

Variable P : event -> Prop.

Lemma emits_only_ret {A} (a : A) : emits_only P (@ret W A a).
Proof. intros st. constructor. Qed.

Lemma emits_only_raise {A} e : emits_only P (@raise W A e).
Proof. intros st. constructor. Qed.

Lemma emits_only_lift {A} (r : result A) : emits_only P (@lift W A r).
Proof. intros st. constructor. Qed.

Lemma emits_only_emit e : P e -> emits_only P (@emit W e).
Proof. intros He st. repeat constructor. exact He. Qed.

Lemma emits_only_print m : P (Printed m) -> emits_only P (@print W m).
Proof. apply emits_only_emit. Qed.

Lemma emits_only_call {A} e (f : W -> A * W) : P e -> emits_only P (call e f).
Proof.
  intros He st. unfold call, trace. destruct (f (st_world st)).
  repeat constructor. exact He.
Qed.

Lemma emits_only_load_content_stream : emits_only P (@load_content_stream W).
Proof.
  intros st. unfold load_content_stream.
  destruct (content_stream (st_frame st)); constructor.
Qed.

Lemma emits_only_load_rep : emits_only P (@load_rep W).
Proof. intros st. unfold load_rep. destruct (rep (st_frame st)); constructor. Qed.

Lemma emits_only_store_content_stream c : emits_only P (@store_content_stream W c).
Proof. intros st. constructor. Qed.

Lemma emits_only_store_rep r : emits_only P (@store_rep W r).
Proof. intros st. constructor. Qed.

Lemma emits_only_new_BytesIO bytes : emits_only P (@new_BytesIO W bytes).
Proof. intros st. constructor. Qed.

Lemma emits_only_stream_read stream : emits_only P (@stream_read W stream).
Proof. intros st. constructor. Qed.

Lemma emits_only_bind {A B} (m : M W A) (k : A -> M W B) :
  emits_only P m -> (forall a, emits_only P (k a)) -> emits_only P (bind m k).
Proof.
  intros Hm Hk st. unfold bind. specialize (Hm st).
  destruct (m st) as [[[a|e] st1] t1]; [|exact Hm].
  specialize (Hk a st1). destruct (k a st1) as [[r st2] t2].
  apply Forall_app. split; assumption.
Qed.

Lemma emits_only_try_except {A} (m : M W A) catches handler :
  emits_only P m -> emits_only P handler ->
  emits_only P (try_except m catches handler).
Proof.
  intros Hm Hh st. unfold try_except. specialize (Hm st).
  destruct (m st) as [[[a|e] st1] t1]; [exact Hm|].
  destruct (catches e); [|exact Hm].
  specialize (Hh st1). destruct (handler st1) as [[r st2] t2].
  apply Forall_app. split; assumption.
Qed.

Lemma emits_only_when b (m : M W unit) :
  emits_only P m -> emits_only P (when b m).
Proof. destruct b; [auto|intros _; apply emits_only_ret]. Qed.

Lemma emits_only_for_each {A} (l : list A) (body : A -> M W unit) :
  (forall x, In x l -> emits_only P (body x)) -> emits_only P (for_each l body).
Proof.
  induction l as [|x l IH]; intros H; simpl.
  - apply emits_only_ret.
  - apply emits_only_bind.
    + apply H. now left.
    + intros _. apply IH. intros y Hy. apply H. now right.
Qed.

(** The trace of a sequence is the trace of its first part followed, when
    that part returns, by the trace of the rest. *)
Lemma trace_bind {A B} (m : M W A) (k : A -> M W B) st :
  trace (bind m k st) =
  trace (m st) ++
  match outcome (m st) with
  | Ok a => trace (k a (final (m st)))
  | Err _ => []
  end.
Proof.
  unfold bind, trace, outcome, final.
  destruct (m st) as [[[a|e] st1] t1]; simpl.
  - now destruct (k a st1) as [[r st2] t2].
  - now rewrite app_nil_r.
Qed.

Lemma outcome_bind {A B} (m : M W A) (k : A -> M W B) st :
  outcome (bind m k st) =
  match outcome (m st) with
  | Ok a => outcome (k a (final (m st)))
  | Err e => Err e
  end.
Proof.
  unfold bind, trace, outcome, final.
  destruct (m st) as [[[a|e] st1] t1]; simpl; [|reflexivity].
  now destruct (k a st1) as [[r st2] t2].
Qed.

Lemma final_bind {A B} (m : M W A) (k : A -> M W B) st :
  final (bind m k st) =
  match outcome (m st) with
  | Ok a => final (k a (final (m st)))
  | Err _ => final (m st)
  end.
Proof.
  unfold bind, outcome, final.
  destruct (m st) as [[[a|e] st1] t1]; simpl; [|reflexivity].
  now destruct (k a st1) as [[r st2] t2].
Qed.

End TraceFacts.

(** Splits a goal about a composed computation into its steps, without
    unfolding the methods it calls. *)
Ltac step_emits :=
  repeat lazymatch goal with
    | |- emits_only _ (bind _ _) => apply emits_only_bind; [|intros ?]
    | |- emits_only _ (try_except _ _ _) => apply emits_only_try_except
    | |- emits_only _ (when _ _) => apply emits_only_when
    | |- emits_only _ (for_each _ _) => apply emits_only_for_each; intros ? ?
    | |- emits_only _ (ret _) => apply emits_only_ret
    | |- emits_only _ (raise _) => apply emits_only_raise
    | |- emits_only _ (lift _) => apply emits_only_lift
    | |- emits_only _ load_content_stream => apply emits_only_load_content_stream
    | |- emits_only _ load_rep => apply emits_only_load_rep
    | |- emits_only _ (store_content_stream _) => apply emits_only_store_content_stream
    | |- emits_only _ (store_rep _) => apply emits_only_store_rep
    | |- emits_only _ (new_BytesIO _) => apply emits_only_new_BytesIO
    | |- emits_only _ (stream_read _) => apply emits_only_stream_read
    | |- emits_only _ (print _) => apply emits_only_print; reflexivity
    | |- emits_only _ (call _ _) => apply emits_only_call; reflexivity
    | |- emits_only _ (if ?b then _ else _) => destruct b
    | |- emits_only _ (match ?b with _ => _ end) => destruct b
    end.

Section NoUpdate.
Context {W : Type} (srv : Services W).

Lemma upload_document_no_update n c :
  emits_only not_update (upload_document srv n c).
Proof.
  unfold upload_document, document_of_response. step_emits.
Qed.

Lemma delete_document_no_update i :
  emits_only not_update (delete_document srv i).
Proof. unfold delete_document. step_emits. Qed.

Lemma download_file_no_update d :
  emits_only not_update (download_file srv d).
Proof. unfold download_file. step_emits. Qed.

Lemma process_file_no_update E rd v file :
  emits_only not_update (process_file srv E rd v file).
Proof.
  unfold process_file. step_emits.
  - unfold process_existing. rewrite dotted_splitext_not_supported.
    unfold when. step_emits. apply delete_document_no_update.
  - unfold process_new. step_emits;
      auto using download_file_no_update, upload_document_no_update.
Qed.

Lemma reconcile_no_update D E rd v :
  emits_only not_update (reconcile srv D E rd v).
Proof.
  unfold reconcile, create_update_pass, delete_orphans. step_emits.
  - apply process_file_no_update.
  - apply delete_document_no_update.
Qed.

End NoUpdate.

(** ** [max] and [sorted] agree on the canonical document *)

Section MaxSorted.
Context {A : Type} (key : A -> Z).

Lemma later_assoc a b c :
  later key (later key a b) c = later key a (later key b c).
Proof.
  unfold later.
  destruct (Z.ltb_spec (key a) (key b)), (Z.ltb_spec (key b) (key c));
    repeat match goal with
           | |- context [?x <? ?y] => destruct (Z.ltb_spec x y)
           end; try reflexivity; lia.
Qed.

Lemma fold_later rest : forall a b,
  fold_left (later key) rest (later key a b)
  = later key a (fold_left (later key) rest b).
Proof.
  induction rest as [|c rest IH]; intros a b; simpl; [reflexivity|].
  now rewrite later_assoc, IH.
Qed.

Lemma insert_desc_perm x l : Permutation (insert_desc key x l) (x :: l).
Proof.
  induction l as [|y l IH]; simpl; [reflexivity|].
  destruct (key x <? key y); [|reflexivity].
  rewrite IH. apply perm_swap.
Qed.

Lemma sorted_desc_perm l : Permutation (sorted_desc key l) l.
Proof.
  induction l as [|x l IH]; simpl; [reflexivity|].
  rewrite insert_desc_perm. now constructor.
Qed.

(** The head of the descending stable sort is what [max] returns. *)
Lemma sorted_desc_head x rest :
  sorted_desc key (x :: rest)
  = fold_left (later key) rest x :: tl (sorted_desc key (x :: rest)).
Proof.
  revert x. induction rest as [|y rest IH]; intros x; [reflexivity|].
  change (sorted_desc key (x :: y :: rest))
    with (insert_desc key x (sorted_desc key (y :: rest))).
  rewrite (IH y). cbn [insert_desc fold_left].
  rewrite fold_later. fold (later key x (fold_left (later key) rest y)).
  unfold later. now destruct (key x <? key (fold_left _ rest y)).
Qed.

Lemma py_max_sorted_desc l c :
  py_max key l = Ok c ->
  sorted_desc key l = c :: tl (sorted_desc key l).
Proof.
  destruct l as [|x rest]; [discriminate|].
  intros [= <-]. apply sorted_desc_head.
Qed.

Lemma fold_later_ge rest : forall x d,
  In d (x :: rest) -> key d <= key (fold_left (later key) rest x).
Proof.
  induction rest as [|y rest IH]; intros x d Hd.
  - destruct Hd as [<-|[]]. simpl. lia.
  - cbn [fold_left]. rewrite fold_later. unfold later at 1.
    assert (Hy : forall e, In e (y :: rest) ->
                 key e <= key (fold_left (later key) rest y))
      by (intros e He; now apply IH).
    destruct (Z.ltb_spec (key x) (key (fold_left (later key) rest y)));
      destruct Hd as [<-|Hd]; try lia; specialize (Hy _ Hd); lia.
Qed.

(** [max] returns an element of the list that no element exceeds. *)
Lemma py_max_spec l c :
  py_max key l = Ok c ->
  In c l /\ forall d, In d l -> key d <= key c.
Proof.
  intros H. split.
  - apply (Permutation_in c (sorted_desc_perm l)).
    rewrite (py_max_sorted_desc _ H). now left.
  - destruct l as [|x rest]; [discriminate|].
    injection H as <-. apply fold_later_ge.
Qed.

Lemma py_max_nonempty l : l <> [] -> exists c, py_max key l = Ok c.
Proof. destruct l; [congruence|]. intros _. eexists. reflexivity. Qed.

End MaxSorted.

(** ** Deleting a list of documents *)

Section Deleting.
Context {W : Type} (srv : Services W).

Lemma sink_writes_app t1 t2 :
  sink_writes (t1 ++ t2) = sink_writes t1 ++ sink_writes t2.
Proof. apply filter_app. Qed.

Lemma delete_document_run i st :
  exists ok w,
    srv_delete srv i (st_world st) = (ok, w) /\
    delete_document srv i st =
    (Ok tt, mkState w (st_frame st) (st_streams st),
     [DeleteDocument i;
      Printed (if ok then MsgDeletedSuccessfully i else MsgFailedToDelete i)]).
Proof.
  unfold delete_document, bind, call.
  destruct (srv_delete srv i (st_world st)) as [ok w].
  exists ok, w. split; [reflexivity|]. now destruct ok.
Qed.

(** Deleting each document of a list issues one delete per document, in
    order, whatever the sink answers, and never raises. *)
Lemma delete_each_run (l : list Document) : forall st,
  outcome (for_each l (fun doc => delete_document srv (id doc)) st) = Ok tt /\
  sink_writes (trace (for_each l (fun doc => delete_document srv (id doc)) st))
  = map (fun doc => DeleteDocument (id doc)) l /\
  st_frame (final (for_each l (fun doc => delete_document srv (id doc)) st))
  = st_frame st.
Proof.
  induction l as [|d l IH]; intros st; [now repeat split|].
  cbn [for_each]. unfold bind at 1 2 3.
  destruct (delete_document_run (id d) st) as (ok & w & _ & ->).
  specialize (IH (mkState w (st_frame st) (st_streams st))).
  destruct (for_each l _ _) as [[r st2] t2].
  unfold outcome, trace, final in *; simpl in *.
  destruct IH as (-> & -> & ->). now repeat split.
Qed.

End Deleting.

(** ** The reconciliation loops *)

Lemma py_in_filter n (E : list Document) :
  py_in n (map name E) = true <->
  filter (fun d => String.eqb (name d) n) E <> [].
Proof.
  unfold py_in. induction E as [|d E IH]; simpl; [split; congruence|].
  rewrite (String.eqb_sym n (name d)).
  destruct (String.eqb (name d) n); simpl; [split; congruence|exact IH].
Qed.

Section Loops.
Context {W : Type} (srv : Services W).

(** A loop whose body never raises never raises, and its sink writes are
    those of its turns, one after the other. *)
Lemma for_each_writes {A} (body : A -> M W unit) (writes : A -> list event)
  (l : list A) :
  (forall x st, In x l ->
     outcome (body x st) = Ok tt /\ sink_writes (trace (body x st)) = writes x) ->
  forall st,
    outcome (for_each l body st) = Ok tt /\
    sink_writes (trace (for_each l body st)) = flat_map writes l.
Proof.
  induction l as [|x l IH]; intros H st; [now split|].
  cbn [for_each flat_map]. rewrite outcome_bind, trace_bind, sink_writes_app.
  destruct (H x st (or_introl eq_refl)) as [-> ->].
  destruct (IH (fun y st' Hy => H y st' (or_intror Hy)) (final (body x st)))
    as [-> ->].
  now split.
Qed.

Lemma listing_run (E : list Document) v (st : state W) :
  when v (print MsgExistingDocuments ;;
          for_each E (fun doc => print (MsgDocument doc))) st
  = (Ok tt, st, listing_of_existing E v).
Proof.
  destruct v; [|reflexivity]. unfold when, listing_of_existing.
  assert (H : for_each E (fun doc => print (MsgDocument doc)) st
              = (Ok tt, st, map (fun doc => Printed (MsgDocument doc)) E)).
  { induction E as [|d E IH]; [reflexivity|].
    cbn [for_each map]. unfold bind, print, emit in *. now rewrite IH. }
  unfold bind at 1. unfold print at 1, emit. now rewrite H.
Qed.

Lemma delete_document_writes i st :
  outcome (delete_document srv i st) = Ok tt /\
  sink_writes (trace (delete_document srv i st)) = [DeleteDocument i].
Proof.
  destruct (delete_document_run srv i st) as (ok & w & _ & ->).
  now destruct ok.
Qed.

(** The second loop deletes the documents of the sink whose name no file
    has, each once and in order, and nothing else. *)
Lemma delete_orphans_run D (E : list Document) v st :
  outcome (delete_orphans srv D E v st) = Ok tt /\
  sink_writes (trace (delete_orphans srv D E v st))
  = map (fun d => DeleteDocument (id d))
        (filter (fun d => negb (py_in (name d) (map name D))) E).
Proof.
  unfold delete_orphans.
  set (writes := fun d : Document =>
         if negb (py_in (name d) (map name D)) then [DeleteDocument (id d)]
         else []).
  assert (Hflat : flat_map writes E
                  = map (fun d => DeleteDocument (id d))
                      (filter (fun d => negb (py_in (name d) (map name D))) E)).
  { induction E as [|d E IH]; [reflexivity|]. cbn [flat_map filter].
    unfold writes at 1. destruct (negb _); simpl; now rewrite IH. }
  rewrite <- Hflat. apply for_each_writes.
  intros d st' _. unfold writes.
  destruct (negb (py_in (name d) (map name D))); [|now split].
  rewrite outcome_bind, trace_bind, sink_writes_app.
  destruct (delete_document_writes (id d) st') as [-> ->].
  now destruct v.
Qed.

Lemma reconcile_trace D E rd v st :
  trace (reconcile srv D E rd v st) =
  listing_of_existing E v ++
  trace (create_update_pass srv D E rd v st) ++
  match outcome (create_update_pass srv D E rd v st) with
  | Ok _ => trace (delete_orphans srv D E v
                     (final (create_update_pass srv D E rd v st)))
  | Err _ => []
  end.
Proof.
  unfold reconcile. rewrite trace_bind, listing_run.
  unfold trace at 1, outcome at 1, final at 1; simpl.
  now rewrite trace_bind.
Qed.

(** A run whose listing is answered is the reconciliation with the set of
    the listed documents, in the order the set gives them. *)
Lemma synchronize_with_dify_listed order D rd v (st : state W) listed w1 :
  srv_list_documents srv (st_world st) = (Some listed, w1) ->
  let run := synchronize_with_dify srv order D rd v st in
  let rest := reconcile srv D (iterate order listed) rd v
                (mkState w1 (st_frame st) (st_streams st)) in
  outcome run = outcome rest /\
  final run = final rest /\
  trace run = ListDocuments :: trace rest.
Proof.
  intros Hlist run rest. subst run rest.
  unfold synchronize_with_dify, get_existing_documents.
  unfold bind, call. rewrite Hlist. unfold ret. cbn beta iota.
  destruct (reconcile srv D (iterate order listed) rd v _) as [[r s] t].
  split; [reflexivity|]. split; reflexivity.
Qed.

End Loops.

Section Existing.
Context {W : Type} (srv : Services W).

(** What the duplicate removal of one turn emits. *)
Lemma remove_duplicates_run (same : list Document) rd st :
  let m := when (rd && (1 <? List.length same)%nat)
             (for_each (tl (sorted_desc date same))
                (fun doc => delete_document srv (id doc))) in
  outcome (m st) = Ok tt /\
  st_frame (final (m st)) = st_frame st /\
  sink_writes (trace (m st))
  = if rd && (1 <? List.length same)%nat
    then map (fun d => DeleteDocument (id d)) (tl (sorted_desc date same))
    else [].
Proof.
  simpl. destruct (rd && (1 <? List.length same)%nat); [|now repeat split].
  destruct (delete_each_run srv (tl (sorted_desc date same)) st) as (H1 & H2 & H3).
  now repeat split.
Qed.

Lemma bind_lift {A B} (a : A) (k : A -> M W B) st :
  bind (lift (Ok a)) k st = k a st.
Proof. unfold bind, lift. now destruct (k a st) as [[r st2] t2]. Qed.

(** The turn of the first loop for a file whose name the sink has: the
    duplicate removal, then the decision on the date, which only prints. *)
Lemma process_existing_run E rd v file canonical st :
  let same := filter (fun d => String.eqb (name d) (name file)) E in
  py_max date same = Ok canonical ->
  exists deletions,
    outcome (process_existing srv E rd v file st) = Ok tt /\
    st_frame (final (process_existing srv E rd v file st)) = st_frame st /\
    sink_writes deletions
    = (if rd && (1 <? List.length same)%nat
       then map (fun d => DeleteDocument (id d)) (tl (sorted_desc date same))
       else []) /\
    trace (process_existing srv E rd v file st) =
      deletions ++
      (if date canonical <=? date file
       then [Printed (MsgUpdatedDocument (name file))]
       else if v then [Printed (MsgNoNeedToUpdate (name file))] else []).
Proof.
  intros same Hmax. unfold process_existing. fold same.
  rewrite dotted_splitext_not_supported, Hmax, !bind_lift.
  destruct (remove_duplicates_run same rd st) as (Ho & Hf & Hw).
  cbv zeta in Ho, Hf, Hw.
  set (dedup := when (rd && (1 <? List.length same)%nat) _) in *.
  set (decision := if date canonical <=? date file then bind _ _ else _).
  assert (Hd : forall st1,
             decision st1 =
             (Ok tt, st1,
              if date canonical <=? date file
              then [Printed (MsgUpdatedDocument (name file))]
              else if v then [Printed (MsgNoNeedToUpdate (name file))] else [])).
  { intros st1. unfold decision.
    destruct (date canonical <=? date file); [reflexivity|now destruct v]. }
  exists (trace (dedup st)).
  rewrite !outcome_bind, !final_bind, !trace_bind, Ho, !Hd.
  now repeat split.
Qed.

End Existing.

(** ** The reconciliation: updates, duplicates and orphans *)

(** C1.  The update the design describes never happens: whatever the
    dates and the services, a run issues no update, because the update
    branch tests ["." + os.path.splitext(name)[1]], which starts with two
    dots, against the extension list.  For "a.pdf", created at 50 in the
    sink and modified at 100 in the source, with ".pdf" in the list, the
    run only prints that it updated the document. *)
Theorem update_is_never_issued {W} (srv : Services W)
  (all_documents existing_documents : list Document)
  (remove_duplicates verbose : bool) (st : state W) :
  Forall not_update
    (trace (reconcile srv all_documents existing_documents
              remove_duplicates verbose st)) /\
  py_in (snd (splitext "a.pdf")) SUPPORTED_EXTENSIONS_UNSTRUCTURED = true /\
  trace (reconcile srv desired_pdf older_pdf remove_duplicates false st)
  = [Printed (MsgUpdatedDocument "a.pdf")] /\
  trace (reconcile srv desired_pdf newer_pdf remove_duplicates false st) = [].
Proof.
  split; [apply reconcile_no_update|].
  split; [reflexivity|].
  split; destruct remove_duplicates; reflexivity.
Qed.



(** Of the three entries created at 10, 20 and 15, the ones of 15 and 10 are
    deleted and the one of 20 is kept, whatever the sink answers. *)
Example three_x_collapse {W} (srv : Services W) st :
  py_max date three_x = Ok (existing "x" "s20" 20) /\
  sink_writes (trace (process_file srv three_x true false
                        (desired "x" "701" 30) st))
  = [DeleteDocument "s15"; DeleteDocument "s10"].
Proof.
  split; [reflexivity|].
  pose proof (@process_existing_run W srv three_x true false
                (desired "x" "701" 30) (existing "x" "s20" 20) st eq_refl) as H.
  destruct H as (deletions & _ & _ & Hw & Ht).
  unfold process_file. rewrite trace_bind.
  cbn [when ret outcome trace final fst snd app].
  change (py_in (name (desired "x" "701" 30)) (map name three_x)) with true.
  cbv iota. rewrite Ht, sink_writes_app, Hw. reflexivity.
Qed.

(** C4.  The second loop runs after the first one has gone through every
    file, and issues a delete for each document of the sink whose name no
    file has, and for no other document. *)
Theorem orphans_are_deleted_after_the_first_pass {W} (srv : Services W)
  (all_documents existing_documents : list Document)
  (remove_duplicates verbose : bool) (st : state W) :
  let orphan d := negb (py_in (name d) (map name all_documents)) in
  trace (reconcile srv all_documents existing_documents remove_duplicates
           verbose st) =
    listing_of_existing existing_documents verbose ++
    trace (create_update_pass srv all_documents existing_documents
             remove_duplicates verbose st) ++
    match outcome (create_update_pass srv all_documents existing_documents
                     remove_duplicates verbose st) with
    | Ok _ =>
        trace (delete_orphans srv all_documents existing_documents verbose
                 (final (create_update_pass srv all_documents existing_documents
                           remove_duplicates verbose st)))
    | Err _ => []
    end /\
  forall st',
    let pass := delete_orphans srv all_documents existing_documents verbose st' in
    outcome pass = Ok tt /\
    sink_writes (trace pass)
    = map (fun d => DeleteDocument (id d)) (filter orphan existing_documents) /\
    (forall d, In d existing_documents -> orphan d = true ->
       In (DeleteDocument (id d)) (trace pass)) /\
    (forall i, In (DeleteDocument i) (trace pass) ->
       exists d, In d existing_documents /\ id d = i /\
                 py_in (name d) (map name all_documents) = false).
Proof.
  intros orphan. split; [apply reconcile_trace|].
  intros st' pass.
  destruct (delete_orphans_run srv all_documents existing_documents verbose st')
    as [Ho Hw].
  fold pass in Ho, Hw. fold orphan in Hw.
  split; [exact Ho|]. split; [exact Hw|]. split.
  - intros d Hd Horphan.
    assert (Hin : In (DeleteDocument (id d)) (sink_writes (trace pass))).
    { rewrite Hw. apply (in_map (fun d => DeleteDocument (id d))).
      apply filter_In. now split. }
    apply filter_In in Hin. tauto.
  - intros i Hi.
    assert (Hin : In (DeleteDocument i) (sink_writes (trace pass)))
      by (apply filter_In; now split).
    rewrite Hw in Hin. apply in_map_iff in Hin as (d & [= <-] & Hd).
    apply filter_In in Hd as [Hd Horphan].
    exists d. repeat split; [assumption|].
    unfold orphan in Horphan. now apply negb_true_iff in Horphan.
Qed.

(** With "a" in the source and "a" and "b" in the sink, the run deletes "b"
    and nothing else. *)
Example only_b_is_deleted {W} (srv : Services W) rd st :
  sink_writes (trace (reconcile srv only_a a_and_b rd false st))
  = [DeleteDocument "sb"].
Proof.
  rewrite reconcile_trace.
  assert (Hpass : create_update_pass srv only_a a_and_b rd false st
                  = (Ok tt, st, [])) by (destruct rd; reflexivity).
  rewrite Hpass. cbn [outcome trace final fst snd listing_of_existing app].
  destruct (delete_orphans_run srv only_a a_and_b false st) as [_ ->].
  reflexivity.
Qed.

(** ** New documents *)

(** Unfolds a turn of the loops down to the calls to the services. *)
Ltac run_unfold :=
  unfold process_file, process_new, process_existing, update_document,
    upload_document, delete_document, download_file, document_of_response,
    try_except, bind, call, when, print, emit, ret, raise, lift,
    load_content_stream, load_rep, store_content_stream, store_rep,
    new_BytesIO, stream_read,
    catch_Exception, catch_KeyError, outcome, trace, final.




(** With "new.pdf" in the source and an empty sink, the run creates it once,
    from the content it fetched. *)
Example new_pdf_is_created_once :
  sink_writes (trace (reconcile accepting_services
                        [desired "new.pdf" "901" 100] [] true false (start tt)))
  = [CreateByFile "new.pdf" "%PDF"].
Proof. reflexivity. Qed.

(** C8.  A new file gets at most two create attempts, and a create the sink
    rejects is retried once, a second rejection surfacing as [KeyError];
    the retry hands over the stream the first attempt has read to its end,
    so its request carries no bytes.  A download that fails is not followed
    by such a retry: the handler reads [content_stream], which the failed
    download left as it was, so the run ends in [UnboundLocalError] without
    any create when no earlier turn assigned it, and otherwise sends what
    is left to read of the stream of that earlier file under the name of
    this one. *)
Theorem create_retry_after_failure {W} (srv : Services W)
  (existing_documents : list Document) (remove_duplicates verbose : bool)
  (file : Document) (st : state W) :
  py_in (name file) (map name existing_documents) = false ->
  let run := process_file srv existing_documents remove_duplicates verbose
               file st in
  (List.length (filter is_create (trace run)) <= 2)%nat /\
  (forall w1,
     srv_download srv file (st_world st) = (None, w1) ->
     match content_stream (st_frame st) with
     | None =>
         outcome run = Err (UnboundLocalError "content_stream") /\
         filter is_create (trace run) = []
     | Some stale =>
         filter is_create (trace run)
         = [CreateByFile (name file) (unread stale (st_streams st))]
     end) /\
  (forall bytes w1 w2,
     srv_download srv file (st_world st) = (Some bytes, w1) ->
     py_in (snd (splitext (name file))) SUPPORTED_EXTENSIONS_UNSTRUCTURED = true ->
     srv_create_by_file srv (name file) bytes w1 = (None, w2) ->
     filter is_create (trace run)
     = [CreateByFile (name file) bytes; CreateByFile (name file) EmptyString] /\
     forall w3,
       srv_create_by_file srv (name file) EmptyString w2 = (None, w3) ->
       outcome run = Err KeyError).
Proof.
  intros Hnew run. subst run. run_unfold. rewrite Hnew.
  destruct verbose; cbn beta iota zeta.
  all: destruct (srv_download srv file (st_world st)) as [[bytes|] w1] eqn:Hdl;
    cbn beta iota zeta; cbn [st_world st_frame st_streams content_stream rep].
  all: destruct (py_in (snd (splitext (name file))) SUPPORTED_EXTENSIONS_UNSTRUCTURED)
         eqn:Hext; cbn beta iota zeta;
         cbn [st_world st_frame st_streams content_stream rep].
  all: try (destruct (content_stream (st_frame st)) as [stale|] eqn:Hcs;
            cbn beta iota zeta;
            cbn [st_world st_frame st_streams content_stream rep]).
  all: rewrite ?unread_new.
  all: repeat match goal with
         | |- context [srv_create_by_file ?s ?n ?c ?w] =>
             let H := fresh "Hc" in
             destruct (srv_create_by_file s n c w) as [[?|] ?] eqn:H;
             cbn -[splitext py_in unread exhaust]; rewrite ?unread_exhaust
         end.
  all: try (destruct (rep (st_frame st)); cbn -[splitext py_in unread exhaust]).
  all: cbn -[splitext py_in unread exhaust].
  all: split; [lia|].
  all: split; [first [solve [intros ? [=]] | solve [intros ? _; now repeat split]]|].
  all: try solve [intros ? ? ? [=] | intros ? ? ? _ [=]].
  all: intros ? ? ? [= <- <-] _ Hc'.
  all: try match goal with
         | Ha : ?x = _, Hb : ?x = (None, _) |- _ =>
             rewrite Ha in Hb; inversion Hb; subst; clear Hb
         end.
  all: split; [reflexivity|].
  all: intros ? Hc''.
  all: try match goal with
         | Ha : ?x = _, Hb : ?x = (None, _) |- _ =>
             rewrite Ha in Hb; inversion Hb; subst; clear Hb
         end.
  all: reflexivity.
Qed.

Lemma create_retry_after_failure_witness :
  let srv := constant_services None (Some "{id}") (Some "{id}") true [] in
  let file := desired "a.pdf" "501" 100 in
  let run := process_file srv [] true false file (start tt) in
  (List.length (filter is_create (trace run)) <= 2)%nat /\
  (forall w1,
     srv_download srv file (st_world (start tt)) = (None, w1) ->
     match content_stream (st_frame (start tt)) with
     | None =>
         outcome run = Err (UnboundLocalError "content_stream") /\
         filter is_create (trace run) = []
     | Some stale =>
         filter is_create (trace run)
         = [CreateByFile (name file) (unread stale (st_streams (start tt)))]
     end) /\
  (forall bytes w1 w2,
     srv_download srv file (st_world (start tt)) = (Some bytes, w1) ->
     py_in (snd (splitext (name file))) SUPPORTED_EXTENSIONS_UNSTRUCTURED = true ->
     srv_create_by_file srv (name file) bytes w1 = (None, w2) ->
     filter is_create (trace run)
     = [CreateByFile (name file) bytes; CreateByFile (name file) EmptyString] /\
     forall w3,
       srv_create_by_file srv (name file) EmptyString w2 = (None, w3) ->
       outcome run = Err KeyError).
Proof.
  apply (@create_retry_after_failure unit
           (constant_services None (Some "{id}") (Some "{id}") true [])
           [] true false (desired "a.pdf" "501" 100) (start tt)).
  reflexivity.
Defined.

(** A create that the sink rejects once: the retry is accepted, and what it
    has sent is an empty file. *)
Example retried_create_sends_an_empty_file :
  let run := reconcile rejecting_once [desired "a.pdf" "501" 100] [] true
               false (start 0%nat) in
  outcome run = Ok tt /\
  sink_writes (trace run)
  = [CreateByFile "a.pdf" "%PDF"; CreateByFile "a.pdf" EmptyString].
Proof. split; reflexivity. Qed.

(** After a file that was fetched and left out for its extension, a file
    whose download fails is created with the bytes of the former. *)
Example failed_download_sends_the_earlier_file :
  let run := reconcile one_file_source
               [desired "notes.xyz" "801" 100; desired "a.pdf" "501" 100] []
               true false (start tt) in
  outcome run = Ok tt /\
  sink_writes (trace run) = [CreateByFile "a.pdf" "notes"].
Proof. split; reflexivity. Qed.

(** The first file of a run, absent from the sink, whose download fails: the
    run stops on the unbound [content_stream] and never asks the sink to
    create anything. *)
Example failed_download_ends_the_run :
  let srv := constant_services None (Some "{id}") (Some "{id}") true [] in
  let run := reconcile srv [desired "a.pdf" "501" 100] [] true false (start tt) in
  outcome run = Err (UnboundLocalError "content_stream") /\
  sink_writes (trace run) = [].
Proof. split; reflexivity. Qed.

(** ** The fallback of [update_document] *)

(** When the sink rejects the update and then the create of the fallback as
    well, [update_document] raises [KeyError] to its caller, which has no
    handler around the call. *)
Example rejected_fallback_create_surfaces :
  let srv := constant_services (Some "%PDF") None None true [] in
  srv_update_by_file srv "a.pdf" "s1" "%PDF" tt = (None, tt) /\
  outcome (update_document srv "a.pdf" "s1" 0%nat (one_stream tt "%PDF"))
  = Err KeyError.
Proof. split; reflexivity. Qed.

(** C9.  When the answer to the update has no document, [update_document]
    deletes the document and then asks for a create under the same name, in
    that order; but it hands [upload_document] the stream the update
    request has read to its end, so that create carries no bytes, whatever
    the content was.  It returns normally exactly when the sink accepts
    that create; otherwise the [KeyError] of the create is what the caller
    gets. *)
Theorem fallback_create_carries_no_content {W}
  (srv : Services W) (document_name document_id : string)
  (document_content : BytesIO) (st : state W) (w1 : W) :
  let body := unread document_content (st_streams st) in
  srv_update_by_file srv document_name document_id body (st_world st)
    = (None, w1) ->
  let run := update_document srv document_name document_id document_content st in
  sink_writes (trace run)
  = [UpdateByFile document_name document_id body;
     DeleteDocument document_id;
     CreateByFile document_name EmptyString] /\
  forall ok w2 created w3,
    srv_delete srv document_id w1 = (ok, w2) ->
    srv_create_by_file srv document_name EmptyString w2 = (created, w3) ->
    outcome run = match created with
                  | Some _ => Ok None
                  | None => Err KeyError
                  end.
Proof.
  intros body Hup run. subst body run. run_unfold.
  cbn beta iota zeta. cbn [st_world st_frame st_streams]. rewrite Hup.
  cbn beta iota zeta. cbn [st_world st_frame st_streams].
  destruct (srv_delete srv document_id w1) as [ok w2] eqn:Hdel.
  destruct ok; cbn beta iota zeta; cbn [st_world st_frame st_streams].
  all: rewrite unread_exhaust.
  all: destruct (srv_create_by_file srv document_name EmptyString w2)
         as [[doc|] w3] eqn:Hcr; cbn -[unread exhaust].
  all: split; [reflexivity|].
  all: intros ? ? ? ? [= <- <-] Hcr'; rewrite Hcr in Hcr'.
  all: now inversion Hcr'.
Qed.

Lemma fallback_create_carries_no_content_witness :
  let srv := constant_services (Some "%PDF") (Some "{id}") None true [] in
  let run := update_document srv "a.pdf" "s1" 0%nat (one_stream tt "%PDF") in
  sink_writes (trace run)
  = [UpdateByFile "a.pdf" "s1" "%PDF"; DeleteDocument "s1";
     CreateByFile "a.pdf" EmptyString] /\
  forall ok w2 created w3,
    srv_delete srv "s1" tt = (ok, w2) ->
    srv_create_by_file srv "a.pdf" EmptyString w2 = (created, w3) ->
    outcome run = match created with
                  | Some _ => Ok None
                  | None => Err KeyError
                  end.
Proof.
  apply (@fallback_create_carries_no_content unit
           (constant_services (Some "%PDF") (Some "{id}") None true [])
           "a.pdf" "s1" 0%nat (one_stream tt "%PDF") tt).
  reflexivity.
Defined.

(** ** Running again on a sink that is in step *)

Lemma filter_name_absent n (E : list Document) :
  ~ In n (map name E) -> filter (fun d => String.eqb (name d) n) E = [].
Proof.
  induction E as [|d E IH]; [reflexivity|]. simpl. intros H.
  destruct (String.eqb_spec (name d) n) as [Heq|_]; [tauto|].
  apply IH. tauto.
Qed.

Lemma NoDup_names_filter n (E : list Document) :
  NoDup (map name E) ->
  (List.length (filter (fun d => String.eqb (name d) n) E) <= 1)%nat.
Proof.
  induction E as [|d E IH]; simpl; [lia|].
  intros H. inversion H as [|? ? Hnotin Hrest]; subst.
  destruct (String.eqb_spec (name d) n) as [Heq|_]; [|now apply IH].
  subst n. rewrite filter_name_absent by assumption. simpl. lia.
Qed.

(** The listings of two folders, put end to end as the main program does,
    can hold two documents of one name. *)
Example twins_come_from_two_folders :
  exists l1 l2,
    snd (list_files sample_strptime (WimiFileSource_init None) "7" folder_one)
      = Ok l1 /\
    snd (list_files sample_strptime (WimiFileSource_init None) "7" folder_two)
      = Ok l2 /\
    twins = l1 ++ l2.
Proof. eexists _, _. repeat split. Qed.


(** The same happens whatever the order in which each of the two runs meets
    the documents of its set: the dates of the twins differ. *)
Lemma twin_is_deleted_in_any_order (order1 order2 : SetOrder) :
  let first := synchronize_with_dify keeping_sink order1 twins true false
                 (start empty_sink) in
  let second := synchronize_with_dify keeping_sink order2 twins true false
                  (start (st_world (final first))) in
  outcome first = Ok tt /\
  outcome second = Ok tt /\
  sink_writes (trace second) = [DeleteDocument "i"; DeleteDocument "i"].
Proof.
  intros first second.
  destruct (@synchronize_with_dify_listed SinkWorld keeping_sink order1 twins
              true false (start empty_sink) [] empty_sink eq_refl)
    as (Ho1 & Hf1 & _).
  cbv zeta in Ho1, Hf1. fold first in Ho1, Hf1.
  rewrite (Permutation_nil (Permutation_sym (iterate_perm order1 []))) in Ho1, Hf1.
  split; [rewrite Ho1; reflexivity|].
  subst second. rewrite Hf1.
  set (w1 := st_world (final (reconcile keeping_sink twins [] true false _))).
  vm_compute in w1.
  match goal with w := ?v |- _ =>
    destruct (@synchronize_with_dify_listed SinkWorld keeping_sink order2 twins
                true false (start v) (sink_documents v) v eq_refl)
      as (Ho2 & _ & Ht2)
  end.
  cbv zeta in Ho2, Ht2. subst w1. rewrite Ho2, Ht2. clear Ho2 Ht2.
  pose proof (iterate_perm order2
                [mkDocument "a.pdf" "i" 1704170000 None None;
                 mkDocument "a.pdf" "ii" 1704170001 None None]) as Hperm.
  apply Permutation_sym, Permutation_length_2_inv in Hperm.
  cbn [sink_documents].
  destruct Hperm as [-> | ->]; split; reflexivity.
Qed.

(** A run on a sink that is in step with the source writes nothing. *)
Lemma reconcile_in_step {W} (srv : Services W)
  (all_documents existing_documents : list Document)
  (remove_duplicates verbose : bool) (st : state W) :
  (forall d, In d all_documents ->
     py_in (name d) (map name existing_documents) = true) ->
  (forall e, In e existing_documents ->
     py_in (name e) (map name all_documents) = true) ->
  (remove_duplicates = true -> NoDup (map name existing_documents)) ->
  outcome (reconcile srv all_documents existing_documents remove_duplicates
             verbose st) = Ok tt /\
  sink_writes (trace (reconcile srv all_documents existing_documents
                        remove_duplicates verbose st)) = [].
Proof.
  intros HD HE Hdup.
  assert (Hturn : forall file st', In file all_documents ->
            outcome (process_file srv existing_documents remove_duplicates
                       verbose file st') = Ok tt /\
            sink_writes (trace (process_file srv existing_documents
                                  remove_duplicates verbose file st'))
            = (fun _ : Document => []) file).
  { intros file st' Hfile. unfold process_file.
    rewrite (HD _ Hfile), outcome_bind, trace_bind.
    assert (Hwhen : when verbose (print (MsgProcessingFile (name file) (id file))) st'
                    = (Ok tt, st',
                       if verbose
                       then [Printed (MsgProcessingFile (name file) (id file))]
                       else []))
      by now destruct verbose.
    rewrite Hwhen. cbn [outcome trace final fst snd].
    pose proof (HD _ Hfile) as Hne. apply py_in_filter in Hne.
    destruct (py_max_nonempty date Hne) as [canonical Hmax].
    destruct (process_existing_run srv existing_documents remove_duplicates
                verbose file st' Hmax) as (deletions & Ho & _ & Hw & Ht).
    split; [exact Ho|].
    rewrite Ht, !sink_writes_app, Hw.
    assert (Hno : remove_duplicates &&
                  (1 <? List.length
                          (filter (fun d => String.eqb (name d) (name file))
                                  existing_documents))%nat = false).
    { destruct remove_duplicates; [|reflexivity]. simpl.
      apply Nat.ltb_ge. now apply NoDup_names_filter, Hdup. }
    rewrite Hno. destruct verbose, (date canonical <=? date file); reflexivity. }
  destruct (for_each_writes _ (fun _ : Document => []) all_documents
              (fun x st' Hx => Hturn x st' Hx) st) as [Hpo Hpw].
  fold (create_update_pass srv all_documents existing_documents
          remove_duplicates verbose) in Hpo, Hpw.
  assert (Hflat : flat_map (fun _ : Document => @nil event) all_documents = [])
    by (clear; induction all_documents; auto).
  rewrite Hflat in Hpw.
  assert (Horph : filter (fun d => negb (py_in (name d) (map name all_documents)))
                    existing_documents = []).
  { clear -HE. induction existing_documents as [|e E IH]; [reflexivity|].
    simpl. rewrite (HE e (or_introl eq_refl)). simpl.
    apply IH. intros e' He'. apply HE. now right. }
  split.
  - unfold reconcile. rewrite outcome_bind, listing_run.
    cbn [outcome final fst snd]. rewrite outcome_bind, Hpo.
    apply delete_orphans_run.
  - rewrite reconcile_trace, Hpo, !sink_writes_app, Hpw.
    destruct (delete_orphans_run srv all_documents existing_documents verbose
                (final (create_update_pass srv all_documents existing_documents
                          remove_duplicates verbose st))) as [_ ->].
    rewrite Horph. destruct verbose; [|reflexivity].
    simpl. clear. induction existing_documents; auto.
Qed.



(** ** Two runs in a row on the keeping sink *)

Lemma outcome_mk {W A} (r : result A) (s : state W) t : outcome (r, s, t) = r.
Proof. reflexivity. Qed.

Lemma final_mk {W A} (r : result A) (s : state W) t : final (r, s, t) = s.
Proof. reflexivity. Qed.

Lemma trace_mk {W A} (r : result A) (s : state W) t : trace (r, s, t) = t.
Proof. reflexivity. Qed.

Section KeepingSink.
Variables (remove_duplicates verbose : bool).

(** The turn for a new file of a supported extension on the keeping sink:
    it returns and the sink has one more document, of the name of the file. *)
Lemma new_file_is_kept file (st : state SinkWorld) :
  py_in (snd (splitext (name file))) SUPPORTED_EXTENSIONS_UNSTRUCTURED = true ->
  let run := process_file keeping_sink [] remove_duplicates verbose file st in
  outcome run = Ok tt /\
  map name (sink_documents (st_world (final run)))
  = map name (sink_documents (st_world st)) ++ [name file].
Proof.
  intros Hext run. subst run. run_unfold.
  cbn [map py_in existsb]. destruct verbose; cbn beta iota zeta.
  all: cbn [keeping_sink srv_download srv_create_by_file st_world st_frame
            content_stream rep fst snd app].
  all: rewrite Hext; cbn -[splitext py_in].
  all: rewrite map_app; now split.
Qed.

Lemma first_pass_is_kept (D : list Document) : forall st : state SinkWorld,
  (forall d, In d D ->
     py_in (snd (splitext (name d))) SUPPORTED_EXTENSIONS_UNSTRUCTURED = true) ->
  let run := create_update_pass keeping_sink D [] remove_duplicates verbose st in
  outcome run = Ok tt /\
  map name (sink_documents (st_world (final run)))
  = map name (sink_documents (st_world st)) ++ map name D.
Proof.
  unfold create_update_pass.
  induction D as [|d D IH]; intros st H; cbn zeta.
  - split; [reflexivity|]. cbn. now rewrite app_nil_r.
  - cbn [for_each]. rewrite outcome_bind, (@final_bind SinkWorld).
    destruct (@new_file_is_kept d st (H d (or_introl eq_refl))) as [Ho Hn].
    rewrite Ho.
    destruct (IH (final (process_file keeping_sink [] remove_duplicates verbose d st))
                (fun d' Hd' => H d' (or_intror Hd'))) as [Ho' Hn'].
    split; [exact Ho'|]. rewrite Hn', Hn, <- app_assoc. reflexivity.
Qed.

(** A first run from the empty sink creates one document per file. *)
Lemma first_run_fills_the_sink (order : SetOrder) (D : list Document) :
  (forall d, In d D ->
     py_in (snd (splitext (name d))) SUPPORTED_EXTENSIONS_UNSTRUCTURED = true) ->
  let run := synchronize_with_dify keeping_sink order D remove_duplicates
               verbose (start empty_sink) in
  outcome run = Ok tt /\
  map name (sink_documents (st_world (final run))) = map name D.
Proof.
  intros H run. subst run. unfold synchronize_with_dify.
  assert (Hget : get_existing_documents keeping_sink order (start empty_sink)
                 = (Ok [], start empty_sink, [ListDocuments])).
  { unfold get_existing_documents, bind, call; cbn.
    now rewrite (Permutation_nil (Permutation_sym (iterate_perm order []))). }
  destruct (first_pass_is_kept D (start empty_sink) H) as [Ho Hn].
  rewrite outcome_bind, (@final_bind SinkWorld), Hget, !outcome_mk, !final_mk.
  unfold reconcile.
  rewrite outcome_bind, (@final_bind SinkWorld), listing_run, !outcome_mk, !final_mk.
  rewrite outcome_bind, (@final_bind SinkWorld), Ho.
  split; [reflexivity|exact Hn].
Qed.

End KeepingSink.

Lemma py_in_true x l : In x l -> py_in x l = true.
Proof.
  intros H. apply existsb_exists. exists x. split; [exact H|].
  apply String.eqb_refl.
Qed.

(** On the keeping sink, a second run after a first one from the empty sink
    writes nothing, provided the files have supported extensions and, when
    [remove_duplicates] is set, no two of them share a name; this whatever
    the order in which each run meets the documents of its set. *)
Corollary second_run_is_idle (order1 order2 : SetOrder) (D : list Document)
  (remove_duplicates verbose : bool) :
  (forall d, In d D ->
     py_in (snd (splitext (name d))) SUPPORTED_EXTENSIONS_UNSTRUCTURED = true) ->
  (remove_duplicates = true -> NoDup (map name D)) ->
  let first := synchronize_with_dify keeping_sink order1 D remove_duplicates
                 verbose (start empty_sink) in
  let second := synchronize_with_dify keeping_sink order2 D remove_duplicates
                  verbose (start (st_world (final first))) in
  outcome first = Ok tt /\
  outcome second = Ok tt /\
  sink_writes (trace second) = [].
Proof.
  intros Hext Hdup first second.
  destruct (first_run_fills_the_sink remove_duplicates verbose order1 D Hext)
    as [Ho Hn].
  fold first in Ho, Hn. split; [exact Ho|].
  subst second. unfold synchronize_with_dify.
  set (w1 := st_world (final first)) in *.
  set (E := iterate order2 (sink_documents w1)).
  assert (Hget : get_existing_documents keeping_sink order2 (start w1)
                 = (Ok E, start w1, [ListDocuments]))
    by reflexivity.
  assert (HE : Permutation (map name E) (map name D)).
  { rewrite <- Hn. apply Permutation_map, iterate_perm. }
  rewrite outcome_bind, trace_bind, Hget, !outcome_mk, !final_mk, !trace_mk.
  destruct (@reconcile_in_step SinkWorld keeping_sink D E
              remove_duplicates verbose (start w1)) as [Ho2 Hw2].
  - intros d Hd. apply py_in_true.
    apply (Permutation_in _ (Permutation_sym HE)). now apply in_map.
  - intros e He. apply py_in_true.
    apply (Permutation_in _ HE). now apply in_map.
  - intros Hrd. apply (Permutation_NoDup (Permutation_sym HE)). now apply Hdup.
  - split; [exact Ho2|]. rewrite sink_writes_app, Hw2. reflexivity.
Qed.

(** * Further properties *)

(** ** [remove_multiple_extensions]: failures, fixed points, idempotence *)

Lemma collapse_loop_nil : collapse_loop [] = Err IndexError.
Proof. reflexivity. Qed.

(** The loop fails on lists of identical segments only, and with
    [IndexError]. *)
Lemma collapse_loop_err parts : forall e,
  collapse_loop parts = Err e ->
  e = IndexError /\ (parts = [] \/ exists x n, parts = repeat x (S n)).
Proof.
  induction parts as [|a l IH] using rev_ind; intros e H.
  - rewrite collapse_loop_nil in H. injection H as <-. auto.
  - destruct l as [|b l _] using rev_ind.
    + simpl in H. rewrite collapse_loop_one in H. injection H as <-.
      split; [reflexivity|]. right. now exists a, 0%nat.
    + rewrite <- app_assoc in H. simpl in H. rewrite collapse_loop_two in H.
      destruct (String.eqb a b) eqn:E; [|discriminate].
      apply String.eqb_eq in E; subst a.
      destruct (IH _ H) as [-> [Hnil|(x & n & Hrep)]].
      * destruct l; discriminate.
      * split; [reflexivity|]. right. exists x, (S n).
        assert (b = x)
          by (rewrite repeat_snoc in Hrep; now apply app_inj_tail in Hrep).
        subst b. rewrite Hrep. symmetry. apply repeat_snoc.
Qed.

(** A list that ends in two different segments goes through the loop
    unchanged. *)
Lemma collapse_loop_fixed pre y x :
  y <> x -> collapse_loop (pre ++ [y; x]) = Ok (pre ++ [y; x]).
Proof.
  intros H. rewrite collapse_loop_two.
  destruct (String.eqb_spec x y); [congruence|reflexivity].
Qed.

(** X1.  [remove_multiple_extensions] raises on the file names made of three
    or more copies of one dot-free segment, on no other, and what it raises
    is [IndexError]. *)
Theorem remove_multiple_extensions_raises_iff (filename : string) (e : exn) :
  remove_multiple_extensions filename = Err e <->
  e = IndexError /\
  exists segment n,
    (3 <= n)%nat /\ Str.has_char extsep segment = false /\
    filename = Str.join extsep (repeat segment n).
Proof.
  split.
  - unfold remove_multiple_extensions.
    destruct (Nat.ltb_spec 2 (List.length (Str.split extsep filename)))
      as [Hlen|_]; [|discriminate].
    destruct (collapse_loop (Str.split extsep filename)) as [r|e'] eqn:Hloop;
      simpl; [discriminate|].
    intros [= ->].
    destruct (collapse_loop_err _ Hloop) as [-> [Hnil|(x & n & Hrep)]].
    + now apply StrFacts.split_not_nil in Hnil.
    + split; [reflexivity|]. exists x, (S n).
      rewrite Hrep, repeat_length in Hlen. split; [lia|]. split.
      * pose proof (split_segments_no_sep extsep filename) as Hall.
        rewrite Hrep in Hall. now inversion Hall.
      * rewrite <- Hrep. symmetry. apply StrFacts.join_split.
  - intros (-> & segment & n & Hn & Hseg & ->).
    unfold remove_multiple_extensions. rewrite StrFacts.split_join.
    + rewrite repeat_length.
      destruct (Nat.ltb_spec 2 n) as [_|]; [|lia].
      destruct n as [|n]; [lia|]. now rewrite collapse_loop_all_equal.
    + destruct n; [lia|discriminate].
    + apply Forall_forall. intros p Hp. apply repeat_spec in Hp. now subst.
Qed.

(** X2.  What [remove_multiple_extensions] returns is a name it leaves as it
    is: applying it twice is applying it once. *)
Theorem remove_multiple_extensions_idempotent (filename key : string) :
  remove_multiple_extensions filename = Ok key ->
  remove_multiple_extensions key = Ok key.
Proof.
  unfold remove_multiple_extensions at 1.
  destruct (2 <? List.length (Str.split extsep filename))%nat eqn:Hlen.
  - destruct (collapse_loop (Str.split extsep filename)) as [r|e] eqn:Hloop;
      simpl; [|discriminate].
    intros [= <-].
    destruct (collapse_loop_ok _ Hloop) as (pre & y & x & k & Hyx & Hr & Hparts).
    assert (Hfree : Forall (fun p => Str.has_char extsep p = false) r).
    { pose proof (split_segments_no_sep extsep filename) as Hall.
      rewrite Hparts in Hall. now apply Forall_app in Hall. }
    unfold remove_multiple_extensions.
    rewrite StrFacts.split_join; [|subst r; destruct pre; discriminate|exact Hfree].
    destruct (2 <? List.length r)%nat; [|reflexivity].
    subst r. now rewrite collapse_loop_fixed.
  - intros [= <-]. unfold remove_multiple_extensions. now rewrite Hlen.
Qed.

Lemma remove_multiple_extensions_idempotent_witness :
  remove_multiple_extensions "a.b.tar.gz" = Ok "a.b.tar.gz".
Proof.
  apply (@remove_multiple_extensions_idempotent "a.b.tar.gz.gz.gz" "a.b.tar.gz").
  reflexivity.
Defined.

(** X3.  The names [remove_multiple_extensions] returns unchanged are the
    names with fewer than two dots and the names whose last two segments
    differ. *)
Theorem remove_multiple_extensions_fixed_points (filename : string) :
  remove_multiple_extensions filename = Ok filename <->
  (List.length (Str.split extsep filename) <= 2)%nat \/
  exists pre y x, y <> x /\ Str.split extsep filename = pre ++ [y; x].
Proof.
  split.
  - unfold remove_multiple_extensions.
    destruct (Nat.ltb_spec 2 (List.length (Str.split extsep filename)))
      as [Hlen|Hlen]; [|now left].
    destruct (collapse_loop (Str.split extsep filename)) as [r|e] eqn:Hloop;
      simpl; [|discriminate].
    intros [= Hjoin]. right.
    destruct (collapse_loop_ok _ Hloop) as (pre & y & x & k & Hyx & Hr & Hparts).
    exists pre, y, x. split; [exact Hyx|].
    rewrite <- Hr. rewrite <- Hjoin at 1.
    apply StrFacts.split_join.
    + subst r. destruct pre; discriminate.
    + pose proof (split_segments_no_sep extsep filename) as Hall.
      rewrite Hparts in Hall. now apply Forall_app in Hall.
  - unfold remove_multiple_extensions.
    intros [Hlen|(pre & y & x & Hyx & Hparts)].
    + destruct (Nat.ltb_spec 2 (List.length (Str.split extsep filename)));
        [lia|reflexivity].
    + destruct (2 <? List.length (Str.split extsep filename))%nat;
        [|reflexivity].
      rewrite Hparts, collapse_loop_fixed by assumption. simpl.
      rewrite <- Hparts. now rewrite StrFacts.join_split.
Qed.

(** ** A listing that raises *)

Section ListingErrors.
Variable strptime : string -> string -> option Z.
Variable self : WimiFileSource.
Variable project_id : string.

Lemma list_files_loop_err files_dicts : forall files printed printed' e,
  list_files_loop strptime self project_id files_dicts files printed
    = (printed', Err e) ->
  exists before d after,
    files_dicts = before ++ d :: after /\
    (forall d', In d' before -> entry_supported self d' = true ->
       readable strptime d') /\
    entry_supported self d = true /\
    unreadable_with strptime d e /\
    printed' = printed ++ not_supported_messages self before.
Proof.
  induction files_dicts as [|d rest IH]; intros files printed printed' e H;
    [discriminate|].
  cbn [list_files_loop] in H.
  change (py_in ("." ++ entry_extension d)%string (extensions self))
    with (entry_supported self d) in H.
  destruct (entry_supported self d) eqn:Hs.
  - destruct (remove_multiple_extensions (entry_name d)) as [n|e'] eqn:Hn.
    + destruct (convert_to_timestamp strptime (entry_date d)) as [t|e''] eqn:Ht.
      * destruct (IH _ _ _ _ H) as (before & d0 & after & -> & Hb & Hs0 & Hu & ->).
        exists (d :: before), d0, after. split; [reflexivity|]. split.
        { intros d' [<-|Hd'] Hs'; [|now apply Hb].
          split; eexists; eassumption. }
        split; [exact Hs0|]. split; [exact Hu|].
        unfold not_supported_messages. cbn [filter]. now rewrite Hs.
      * injection H as <- <-. exists [], d, rest.
        split; [reflexivity|]. split; [intros ? []|]. split; [exact Hs|].
        split; [right; split; [now exists n|exact Ht]|].
        now rewrite app_nil_r.
    + injection H as <- <-. exists [], d, rest.
      split; [reflexivity|]. split; [intros ? []|]. split; [exact Hs|].
      split; [now left|]. now rewrite app_nil_r.
  - destruct (IH _ _ _ _ H) as (before & d0 & after & -> & Hb & Hs0 & Hu & ->).
    exists (d :: before), d0, after. split; [reflexivity|]. split.
    { intros d' [<-|Hd'] Hs'; [congruence|now apply Hb]. }
    split; [exact Hs0|]. split; [exact Hu|].
    unfold not_supported_messages. cbn [filter]. rewrite Hs. cbn [negb map].
    now rewrite <- app_assoc.
Qed.

Lemma list_files_loop_stops before d after e : forall files printed,
  (forall d', In d' before -> entry_supported self d' = true ->
     readable strptime d') ->
  entry_supported self d = true ->
  unreadable_with strptime d e ->
  list_files_loop strptime self project_id (before ++ d :: after) files printed
    = (printed ++ not_supported_messages self before, Err e).
Proof.
  induction before as [|d0 before IH]; intros files printed Hb Hs Hu.
  - cbn [app list_files_loop].
    change (py_in ("." ++ entry_extension d)%string (extensions self))
      with (entry_supported self d).
    rewrite Hs. unfold not_supported_messages. cbn [filter map].
    rewrite app_nil_r.
    destruct Hu as [->|[[n ->] ->]]; reflexivity.
  - cbn [app list_files_loop].
    change (py_in ("." ++ entry_extension d0)%string (extensions self))
      with (entry_supported self d0).
    unfold not_supported_messages. cbn [filter].
    destruct (entry_supported self d0) eqn:Hs0; cbn [negb map].
    + destruct (Hb d0 (or_introl eq_refl) Hs0) as [[n ->] [t ->]].
      apply IH; auto. intros d' Hd'. apply Hb. now right.
    + rewrite IH; auto.
      * now rewrite <- app_assoc.
      * intros d' Hd'. apply Hb. now right.
Qed.

End ListingErrors.

(** X4.  A listing raises exactly when one of the entries it would keep has
    a name that does not normalise or a date that does not parse; it then
    raises the exception of the first such entry, has printed the lines of
    the entries before it, and returns none of the documents built so far. *)
Theorem list_files_raises_at_first_unreadable_entry
  (strptime : string -> string -> option Z) (self : WimiFileSource)
  (project_id : string) (files_dicts : list FileEntry)
  (printed : list message) (e : exn) :
  list_files strptime self project_id files_dicts = (printed, Err e) <->
  exists before d after,
    files_dicts = before ++ d :: after /\
    (forall d', In d' before -> entry_supported self d' = true ->
       readable strptime d') /\
    entry_supported self d = true /\
    unreadable_with strptime d e /\
    printed = not_supported_messages self before.
Proof.
  unfold list_files. split.
  - intros H. apply list_files_loop_err in H. exact H.
  - intros (before & d & after & -> & Hb & Hs & Hu & ->).
    now apply list_files_loop_stops.
Qed.

(** ** What a run asks of the two services *)

Section ExpectedCalls.
Context {W : Type} (srv : Services W).
Variable P : event -> Prop.
Hypothesis P_printed : forall m, P (Printed m).

Lemma upload_document_emits n (stream : BytesIO) :
  (forall c, P (CreateByFile n c)) -> emits_only P (upload_document srv n stream).
Proof.
  intros H. unfold upload_document, document_of_response.
  apply emits_only_bind; [apply emits_only_stream_read|]. intros body.
  apply emits_only_bind; [now apply emits_only_call|]. intros r.
  apply emits_only_try_except.
  - destruct r; [apply emits_only_ret|apply emits_only_raise].
  - repeat (apply emits_only_bind; [now apply emits_only_print|]; intros _).
    apply emits_only_raise.
Qed.

Lemma delete_document_emits i :
  P (DeleteDocument i) -> emits_only P (delete_document srv i).
Proof.
  intros H. unfold delete_document.
  apply emits_only_bind; [now apply emits_only_call|].
  intros [|]; now apply emits_only_print.
Qed.

Lemma download_file_emits d :
  P (Download d) -> emits_only P (download_file srv d).
Proof.
  intros H. unfold download_file.
  repeat (apply emits_only_bind; [now apply emits_only_print|]; intros _).
  apply emits_only_bind; [now apply emits_only_call|].
  intros [b|]; [apply emits_only_ret|apply emits_only_raise].
Qed.

End ExpectedCalls.

Lemma named_In n E d : In d (named n E) <-> In d E /\ name d = n.
Proof.
  unfold named. rewrite filter_In. split; intros [H1 H2]; split; auto.
  - now apply String.eqb_eq.
  - now apply String.eqb_eq.
Qed.

Lemma tl_In {A} (x : A) l : In x (tl l) -> In x l.
Proof. destruct l; simpl; auto. Qed.

Section RunCalls.
Context {W : Type} (srv : Services W).
Variables (D E : list Document) (rd v : bool).

Lemma process_file_expected file :
  In file D ->
  emits_only (expected_call D E rd) (process_file srv E rd v file).
Proof.
  intros Hfile.
  assert (Hp : forall m, expected_call D E rd (Printed m)) by (intros; exact I).
  unfold process_file.
  apply emits_only_bind;
    [apply emits_only_when; now apply emits_only_print|intros _].
  destruct (py_in (name file) (map name E)) eqn:Hin.
  - unfold process_existing. rewrite dotted_splitext_not_supported.
    fold (named (name file) E).
    apply emits_only_bind; [apply emits_only_lift|intros c].
    apply emits_only_bind.
    + destruct (rd && (1 <? List.length (named (name file) E))%nat) eqn:Hrd;
        [|apply emits_only_ret].
      apply andb_true_iff in Hrd as [-> _]. cbn [when].
      apply emits_only_for_each. intros x Hx.
      apply delete_document_emits; [exact Hp|].
      assert (Hx' : In x (named (name file) E)).
      { apply (Permutation_in x (sorted_desc_perm date _)). now apply tl_In. }
      apply named_In in Hx' as [HxE Hname].
      exists x. split; [exact HxE|]. split; [reflexivity|]. right.
      split; [reflexivity|]. rewrite Hname. split; [now apply in_map|exact Hx].
    + intros _. destruct (date c <=? date file).
      * apply emits_only_bind; [apply emits_only_ret|intros _].
        now apply emits_only_print.
      * apply emits_only_when. now apply emits_only_print.
  - assert (Hcreate : forall c, expected_call D E rd (CreateByFile (name file) c))
      by (intros c; split; [now apply in_map|exact Hin]).
    unfold process_new. apply emits_only_bind.
    + apply emits_only_try_except.
      * apply emits_only_bind;
          [apply download_file_emits; [exact Hp|now split]|intros bytes].
        apply emits_only_bind; [apply emits_only_new_BytesIO|intros stream].
        apply emits_only_bind; [apply emits_only_store_content_stream|intros _].
        destruct (py_in _ SUPPORTED_EXTENSIONS_UNSTRUCTURED).
        -- apply emits_only_bind; [now apply upload_document_emits|intros r].
           apply emits_only_store_rep.
        -- apply emits_only_when. now apply emits_only_print.
      * repeat (apply emits_only_bind; [now apply emits_only_print|]; intros _).
        apply emits_only_bind; [apply emits_only_load_content_stream|intros c].
        apply emits_only_bind; [now apply upload_document_emits|intros r].
        apply emits_only_bind; [apply emits_only_store_rep|intros _].
        now apply emits_only_print.
    + intros _. apply emits_only_when.
      apply emits_only_bind; [now apply emits_only_print|intros _].
      apply emits_only_bind; [apply emits_only_load_rep|intros r].
      now apply emits_only_print.
Qed.

Lemma reconcile_expected :
  emits_only (expected_call D E rd) (reconcile srv D E rd v).
Proof.
  assert (Hp : forall m, expected_call D E rd (Printed m)) by (intros; exact I).
  unfold reconcile, create_update_pass, delete_orphans.
  apply emits_only_bind.
  { apply emits_only_when.
    apply emits_only_bind; [now apply emits_only_print|intros _].
    apply emits_only_for_each. intros doc _. now apply emits_only_print. }
  intros _. apply emits_only_bind.
  { apply emits_only_for_each. intros file Hfile.
    now apply process_file_expected. }
  intros _. apply emits_only_for_each. intros doc Hdoc.
  destruct (negb (py_in (name doc) (map name D))) eqn:Horphan;
    [|apply emits_only_ret].
  apply negb_true_iff in Horphan.
  apply emits_only_bind.
  - apply delete_document_emits; [exact Hp|].
    exists doc. split; [exact Hdoc|]. split; [reflexivity|]. now left.
  - intros _. apply emits_only_when. now apply emits_only_print.
Qed.

End RunCalls.

(** X5.  Whatever the services answer, a run asks the source only for files
    of [all_documents] whose name no listed document has, and asks the sink
    to create only under such names. *)
Theorem run_fetches_and_creates_for_new_names_only {W} (srv : Services W)
  (all_documents existing_documents : list Document)
  (remove_duplicates verbose : bool) (st : state W) :
  let t := trace (reconcile srv all_documents existing_documents
                    remove_duplicates verbose st) in
  (forall file, In (Download file) t ->
     In file all_documents /\
     py_in (name file) (map name existing_documents) = false) /\
  (forall document_name document_content,
     In (CreateByFile document_name document_content) t ->
     In document_name (map name all_documents) /\
     py_in document_name (map name existing_documents) = false).
Proof.
  intros t.
  pose proof (reconcile_expected srv all_documents existing_documents
                remove_duplicates verbose st) as H.
  fold t in H. rewrite Forall_forall in H.
  split; intros; now apply H in H0.
Qed.

(** X6.  Every delete of a run is for a listed document, and that document
    is an orphan or, with [remove_duplicates], one that the descending sort
    of the documents of its name puts after the first; without
    [remove_duplicates] a run deletes orphans only. *)
Theorem run_deletes_orphans_and_duplicates_only {W} (srv : Services W)
  (all_documents existing_documents : list Document)
  (remove_duplicates verbose : bool) (st : state W) (document_id : string) :
  In (DeleteDocument document_id)
     (trace (reconcile srv all_documents existing_documents
               remove_duplicates verbose st)) ->
  exists d,
    In d existing_documents /\ id d = document_id /\
    (py_in (name d) (map name all_documents) = false \/
     (remove_duplicates = true /\ In (name d) (map name all_documents) /\
      In d (tl (sorted_desc date (named (name d) existing_documents))))).
Proof.
  intros H.
  pose proof (reconcile_expected srv all_documents existing_documents
                remove_duplicates verbose st) as Hall.
  rewrite Forall_forall in Hall. exact (Hall _ H).
Qed.

Lemma run_deletes_orphans_and_duplicates_only_witness :
  exists d,
    In d a_and_b /\ id d = "sb" /\
    (py_in (name d) (map name only_a) = false \/
     (false = true /\ In (name d) (map name only_a) /\
      In d (tl (sorted_desc date (named (name d) a_and_b))))).
Proof.
  apply (@run_deletes_orphans_and_duplicates_only unit accepting_services
           only_a a_and_b false false (start tt) "sb").
  vm_compute. auto.
Defined.

(** X7.  When the listed documents have distinct identifiers, a run never
    deletes the document [max] selects for a name that a file still has:
    the newest entry of a name in the source survives every run. *)
Theorem run_keeps_the_canonical_document {W} (srv : Services W)
  (all_documents existing_documents : list Document)
  (remove_duplicates verbose : bool) (st : state W)
  (file canonical : Document) :
  NoDup (map id existing_documents) ->
  In file all_documents ->
  py_max date (named (name file) existing_documents) = Ok canonical ->
  ~ In (DeleteDocument (id canonical))
       (trace (reconcile srv all_documents existing_documents
                 remove_duplicates verbose st)).
Proof.
  intros Hids Hfile Hmax Hdel.
  pose proof (reconcile_expected srv all_documents existing_documents
                remove_duplicates verbose st) as Hall.
  rewrite Forall_forall in Hall.
  destruct (Hall _ Hdel) as (d & HdE & Hid & Hcase).
  destruct (py_max_spec _ _ Hmax) as [Hc _].
  apply named_In in Hc as [HcE Hcname].
  assert (d = canonical) as ->.
  { clear -Hids HdE HcE Hid. induction existing_documents as [|x E IH];
      [contradiction|].
    simpl in Hids. inversion Hids as [|? ? Hnotin Hrest]; subst.
    destruct HdE as [->|HdE], HcE as [->|HcE]; auto.
    - exfalso. apply Hnotin. rewrite Hid. now apply in_map.
    - exfalso. apply Hnotin. rewrite <- Hid. now apply in_map. }
  destruct Hcase as [Horphan|(_ & _ & Htl)].
  - rewrite Hcname in Horphan.
    assert (py_in (name file) (map name all_documents) = true)
      by (apply py_in_true; now apply in_map).
    congruence.
  - rewrite Hcname in Htl.
    pose proof (py_max_sorted_desc _ _ Hmax) as Hsorted.
    assert (Hnodup : NoDup (sorted_desc date (named (name file) existing_documents))).
    { apply (Permutation_NoDup
               (Permutation_sym (sorted_desc_perm date _))).
      unfold named. apply NoDup_filter.
      now apply NoDup_map_inv in Hids. }
    rewrite Hsorted in Hnodup. inversion Hnodup; subst. contradiction.
Qed.

Lemma run_keeps_the_canonical_document_witness :
  ~ In (DeleteDocument (id (existing "x" "s20" 20)))
       (trace (reconcile accepting_services [desired "x" "701" 30] three_x
                 true false (start tt))).
Proof.
  apply (@run_keeps_the_canonical_document unit accepting_services
           [desired "x" "701" 30] three_x true false (start tt)
           (desired "x" "701" 30) (existing "x" "s20" 20)).
  - repeat constructor; simpl; intuition discriminate.
  - now left.
  - reflexivity.
Defined.

(** ** Runs that stop early, and runs on an empty source *)


Lemma for_each_app {W A} (body : A -> M W unit) (l1 l2 : list A) st :
  for_each (l1 ++ l2) body st
  = bind (for_each l1 body) (fun _ => for_each l2 body) st.
Proof.
  revert st. induction l1 as [|x l1 IH]; intros st.
  - cbn [app for_each]. unfold bind, ret.
    now destruct (for_each l2 body st) as [[r s] t].
  - cbn [app for_each]. unfold bind.
    destruct (body x st) as [[[[]|e] s1] t1]; [|reflexivity].
    rewrite IH. unfold bind.
    destruct (for_each l1 body s1) as [[[[]|e] s2] t2].
    + destruct (for_each l2 body s2) as [[r s3] t3]. now rewrite app_assoc.
    + reflexivity.
Qed.




(** The same two documents, deleted in one order or the other according to
    the order the set gives them in. *)
Example deletes_follow_the_set_order :
  let srv := constant_services None None None false a_and_b in
  sink_writes (trace (synchronize_with_dify srv insertion_order [] true false
                        (start tt)))
  = [DeleteDocument "sa"; DeleteDocument "sb"] /\
  sink_writes (trace (synchronize_with_dify srv opposite_order [] true false
                        (start tt)))
  = [DeleteDocument "sb"; DeleteDocument "sa"].
Proof. split; reflexivity. Qed.

(** X9.  A turn of the first loop that raises ends the run with its
    exception: the files after it get no turn and no orphan is deleted, so
    the trace of the run stops with the trace of that turn. *)
Theorem raising_turn_ends_the_run {W} (srv : Services W)
  (before after existing_documents : list Document) (file : Document)
  (remove_duplicates verbose : bool) (st : state W) (e : exn) :
  let turns :=
    create_update_pass srv before existing_documents remove_duplicates
      verbose st in
  let turn :=
    process_file srv existing_documents remove_duplicates verbose file
      (final turns) in
  outcome turns = Ok tt ->
  outcome turn = Err e ->
  let run :=
    reconcile srv (before ++ file :: after) existing_documents
      remove_duplicates verbose st in
  outcome run = Err e /\
  trace run
  = listing_of_existing existing_documents verbose ++ trace turns ++ trace turn.
Proof.
  intros turns turn Hturns Hturn run.
  assert (Hpass :
    outcome (create_update_pass srv (before ++ file :: after)
               existing_documents remove_duplicates verbose st) = Err e /\
    trace (create_update_pass srv (before ++ file :: after)
             existing_documents remove_duplicates verbose st)
    = trace turns ++ trace turn).
  { unfold create_update_pass. rewrite for_each_app.
    rewrite outcome_bind, trace_bind.
    fold (create_update_pass srv before existing_documents remove_duplicates
            verbose st). fold turns. rewrite Hturns.
    cbn [for_each]. rewrite outcome_bind, trace_bind.
    fold turn. rewrite Hturn. now rewrite app_nil_r. }
  destruct Hpass as [Ho Ht]. subst run. split.
  - unfold reconcile. rewrite outcome_bind, listing_run, outcome_mk, final_mk.
    now rewrite outcome_bind, Ho.
  - now rewrite reconcile_trace, Ho, Ht, app_nil_r.
Qed.

Lemma raising_turn_ends_the_run_witness :
  let srv := constant_services (Some "%PDF") None None true [] in
  let run :=
    reconcile srv ([] ++ desired "a.pdf" "501" 100 :: [desired "b.pdf" "502" 100])
      [existing "gone.pdf" "s9" 10] true false (start tt) in
  outcome run = Err KeyError /\
  trace run
  = listing_of_existing [existing "gone.pdf" "s9" 10] false ++
    trace (create_update_pass srv [] [existing "gone.pdf" "s9" 10] true false
             (start tt)) ++
    trace (process_file srv [existing "gone.pdf" "s9" 10] true false
             (desired "a.pdf" "501" 100)
             (final (create_update_pass srv [] [existing "gone.pdf" "s9" 10]
                       true false (start tt)))).
Proof.
  apply (@raising_turn_ends_the_run unit
           (constant_services (Some "%PDF") None None true [])
           [] [desired "b.pdf" "502" 100] [existing "gone.pdf" "s9" 10]
           (desired "a.pdf" "501" 100) true false (start tt) KeyError);
    reflexivity.
Defined.

(** X10.  Skipping a new file of an unsupported extension is silent and
    harmless without [verbose]; with [verbose] the turn goes on to print
    [rep], so it raises [UnboundLocalError] unless an earlier turn of the
    run created a document, whose answer it then prints. *)
Theorem skipped_file_under_verbose_reads_rep {W} (srv : Services W)
  (existing_documents : list Document) (remove_duplicates : bool)
  (file : Document) (st : state W) (bytes : content) (w1 : W) :
  py_in (name file) (map name existing_documents) = false ->
  srv_download srv file (st_world st) = (Some bytes, w1) ->
  py_in (snd (splitext (name file))) SUPPORTED_EXTENSIONS_UNSTRUCTURED = false ->
  outcome (process_file srv existing_documents remove_duplicates false file st)
  = Ok tt /\
  outcome (process_file srv existing_documents remove_duplicates true file st)
  = match rep (st_frame st) with
    | Some _ => Ok tt
    | None => Err (UnboundLocalError "rep")
    end /\
  forall r, rep (st_frame st) = Some r ->
    In (Printed (MsgRep r))
       (trace (process_file srv existing_documents remove_duplicates true
                 file st)).
Proof.
  intros Hnew Hdl Hext. run_unfold. rewrite Hnew. cbn beta iota zeta.
  rewrite Hdl. cbn beta iota zeta. cbn [st_world st_frame content_stream rep].
  rewrite Hext. cbn beta iota zeta. cbn [st_world st_frame content_stream rep].
  destruct (rep (st_frame st)) as [r|]; cbn -[splitext py_in].
  - repeat split. intros r' [= <-]. auto 12.
  - repeat split. intros r' [=].
Qed.

Lemma skipped_file_under_verbose_reads_rep_witness :
  let file := desired "notes.xyz" "801" 100 in
  outcome (process_file accepting_services [] true false file (start tt))
  = Ok tt /\
  outcome (process_file accepting_services [] true true file (start tt))
  = match rep (st_frame (start tt)) with
    | Some _ => Ok tt
    | None => Err (UnboundLocalError "rep")
    end /\
  forall r, rep (st_frame (start tt)) = Some r ->
    In (Printed (MsgRep r))
       (trace (process_file accepting_services [] true true file (start tt))).
Proof.
  apply (@skipped_file_under_verbose_reads_rep unit accepting_services [] true
           (desired "notes.xyz" "801" 100) (start tt) "%PDF" tt); reflexivity.
Defined.

(** ** Workspaces: [get_project_id] *)

Lemma decimal_is_numeric s :
  all_chars decimal_char s = true -> all_chars numeric_char s = true.
Proof.
  induction s as [|a s IH]; [reflexivity|]. simpl.
  intros H. apply andb_true_iff in H as [Ha Hs].
  rewrite (IH Hs), andb_true_r. unfold numeric_char, decimal_char in *.
  now rewrite Ha.
Qed.

Lemma find_project_ok projects wanted i :
  find_project projects wanted = Ok i <->
  exists before after,
    projects = before ++ (wanted, i) :: after /\
    forall p, In p before -> fst p <> wanted.
Proof.
  induction projects as [|[n j] rest IH]; simpl.
  - split; [discriminate|]. intros (before & after & H & _).
    destruct before; discriminate.
  - destruct (String.eqb_spec n wanted) as [->|Hne].
    + split.
      * intros [= ->]. exists [], rest. split; [reflexivity|intros ? []].
      * intros (before & after & H & Hb).
        destruct before as [|p before].
        -- now injection H as -> _.
        -- injection H as <- _. exfalso.
           apply (Hb (wanted, j)); [now left|reflexivity].
    + rewrite IH. split.
      * intros (before & after & -> & Hb).
        exists ((n, j) :: before), after. split; [reflexivity|].
        intros p [<-|Hp]; [exact Hne|now apply Hb].
      * intros (before & after & H & Hb).
        destruct before as [|p before].
        -- injection H as -> _. congruence.
        -- injection H as <- ->. exists before, after.
           split; [reflexivity|]. intros q Hq. apply Hb. now right.
Qed.

Lemma find_project_err projects wanted e :
  find_project projects wanted = Err e <->
  e = ValueError /\ ~ In wanted (map fst projects).
Proof.
  induction projects as [|[n j] rest IH]; simpl.
  - split; [intros [= <-]; auto|now intros [-> _]].
  - destruct (String.eqb_spec n wanted) as [->|Hne].
    + split; [discriminate|]. intros [_ H]. exfalso. apply H. now left.
    + rewrite IH. split; intros [-> H]; (split; [reflexivity|]); tauto.
Qed.

(** X11.  [get_project_id] takes a specifier that [isnumeric] accepts as
    the identifier itself and never looks at the projects, so a project
    whose name is a number cannot be chosen by its name; any other
    specifier gives the identifier of the first project of exactly that
    name. *)
Theorem get_project_id_returns (projects : list (string * Z))
  (project_name_or_id : string) (project_id : Z) :
  get_project_id projects project_name_or_id = Ok project_id <->
  (project_name_or_id <> EmptyString /\
   all_chars decimal_char project_name_or_id = true /\
   (String.length project_name_or_id <= 4300)%nat /\
   project_id = decimal_value 0 project_name_or_id) \/
  (isnumeric project_name_or_id = false /\
   exists before after,
     projects = before ++ (project_name_or_id, project_id) :: after /\
     forall p, In p before -> fst p <> project_name_or_id).
Proof.
  unfold get_project_id, int_of_numeric.
  destruct (isnumeric project_name_or_id) eqn:Hnum.
  - split.
    + destruct (all_chars decimal_char project_name_or_id) eqn:Hdec;
        [|discriminate].
      destruct (Nat.leb_spec (String.length project_name_or_id) 4300);
        [|discriminate].
      intros [= <-]. left. repeat split; try assumption.
      intros ->. discriminate.
    + intros [(Hne & Hdec & Hlen & ->)|[Hfalse _]]; [|discriminate].
      rewrite Hdec. apply Nat.leb_le in Hlen. now rewrite Hlen.
  - rewrite find_project_ok. split.
    + intros H. right. now split.
    + intros [(Hne & Hdec & _)|[_ H]]; [|exact H].
      exfalso. apply decimal_is_numeric in Hdec.
      destruct project_name_or_id; [congruence|].
      unfold isnumeric in Hnum. congruence.
Qed.

(** X12.  [get_project_id] raises [ValueError] and nothing else, in two
    cases: a numeric specifier that is not made of decimal digits only (or
    has more than 4300 of them), and a specifier that is not numeric and is
    the name of no project. *)
Theorem get_project_id_raises (projects : list (string * Z))
  (project_name_or_id : string) (e : exn) :
  get_project_id projects project_name_or_id = Err e <->
  e = ValueError /\
  ((isnumeric project_name_or_id = true /\
    (all_chars decimal_char project_name_or_id = false \/
     (4300 < String.length project_name_or_id)%nat)) \/
   (isnumeric project_name_or_id = false /\
    ~ In project_name_or_id (map fst projects))).
Proof.
  unfold get_project_id, int_of_numeric.
  destruct (isnumeric project_name_or_id) eqn:Hnum.
  - destruct (all_chars decimal_char project_name_or_id) eqn:Hdec;
      destruct (Nat.leb_spec (String.length project_name_or_id) 4300)
        as [Hlen|Hlen]; cbn [andb].
    + split; [discriminate|].
      intros [_ [[_ [H|H]]|[H _]]]; [discriminate|lia|discriminate].
    + split.
      * intros [= <-]. split; [reflexivity|]. left. split; auto.
      * now intros [-> _].
    + split.
      * intros [= <-]. split; [reflexivity|]. left. split; auto.
      * now intros [-> _].
    + split.
      * intros [= <-]. split; [reflexivity|]. left. split; auto.
      * now intros [-> _].
  - rewrite find_project_err. split; intros [-> H]; (split; [reflexivity|]).
    + right. now split.
    + destruct H as [[H _]|[_ H]]; [discriminate|exact H].
Qed.

Example numeric_name_is_never_looked_up :
  get_project_id [("2024", 7)] "2024" = Ok 2024 /\
  get_project_id [("General", 7)] "General" = Ok 7 /\
  get_project_id [("General", 7)] " General" = Err ValueError /\
  get_project_id [] (String (ascii_of_nat 178) EmptyString) = Err ValueError.
Proof. repeat split. Qed.

(** ** Folders: the recursive listing *)

Section RecursiveListing.
Variable strptime : string -> string -> option Z.
Variable self : WimiFileSource.
Variable drive : Drive.
Variable project : string.

Lemma list_files_loop_continued l : forall files0 printed0 files printed,
  list_files_loop strptime self project l (files0 ++ files) (printed0 ++ printed)
  = continued files0 printed0
      (list_files_loop strptime self project l files printed).
Proof.
  induction l as [|d l IH]; intros files0 printed0 files printed.
  - reflexivity.
  - cbn [list_files_loop].
    destruct (py_in _ (extensions self)).
    + destruct (remove_multiple_extensions (entry_name d)); [|reflexivity].
      destruct (convert_to_timestamp strptime (entry_date d)); [|reflexivity].
      now rewrite <- IH, app_assoc.
    + now rewrite <- IH, app_assoc.
Qed.

Lemma list_files_loop_app l1 l2 : forall files printed,
  list_files_loop strptime self project (l1 ++ l2) files printed
  = match list_files_loop strptime self project l1 files printed with
    | (printed', Ok files') =>
        list_files_loop strptime self project l2 files' printed'
    | failed => failed
    end.
Proof.
  induction l1 as [|d l1 IH]; intros files printed; [reflexivity|].
  cbn [app list_files_loop].
  destruct (py_in _ (extensions self)).
  - destruct (remove_multiple_extensions (entry_name d)); [|reflexivity].
    destruct (convert_to_timestamp strptime (entry_date d)); [|reflexivity].
    apply IH.
  - apply IH.
Qed.

(** Listing two lists of entries put end to end. *)
Lemma list_files_app l1 l2 :
  list_files strptime self project (l1 ++ l2)
  = match list_files strptime self project l1 with
    | (printed, Ok files) =>
        continued files printed (list_files strptime self project l2)
    | failed => failed
    end.
Proof.
  unfold list_files. rewrite list_files_loop_app.
  destruct (list_files_loop strptime self project l1 [] []) as [printed [files|e]];
    [|reflexivity].
  rewrite <- (app_nil_r files) at 1. rewrite <- (app_nil_r printed) at 1.
  apply list_files_loop_continued.
Qed.

Lemma continued_continued f1 p1 f2 p2 r :
  continued f1 p1 (continued f2 p2 r) = continued (f1 ++ f2) (p1 ++ p2) r.
Proof.
  destruct r as [p [docs|e]]; unfold continued; cbn [fst snd];
    now rewrite !app_assoc.
Qed.

Lemma subfolders_loop_flat (recurse : Z -> option listing_result) fuel :
  (forall sub r, recurse sub = Some r ->
     list_files strptime self project
       (subtree_entries fuel drive project (Some sub)) = r) ->
  forall folders all_files printed r,
    subfolders_loop recurse folders all_files printed = Some r ->
    r = continued all_files printed
          (list_files strptime self project
             (flat_map (fun f => subtree_entries fuel drive project (Some (snd f)))
                       folders)).
Proof.
  intros Hrec. induction folders as [|[n sub] rest IH];
    intros all_files printed r H.
  - injection H as <-. unfold continued. cbn. now rewrite !app_nil_r.
  - cbn [subfolders_loop] in H. cbn [flat_map snd].
    rewrite list_files_app.
    destruct (recurse sub) as [[p [files|e]]|] eqn:Hsub; [| |discriminate].
    + rewrite (Hrec _ _ Hsub). apply IH in H. rewrite H.
      now rewrite continued_continued.
    + rewrite (Hrec _ _ Hsub). injection H as <-. reflexivity.
Qed.

(** When the recursive listing comes back, it comes back with what one
    listing of all the entries below the folder, depth first, gives. *)
Lemma list_files_recursive_flat fuel : forall folder_id r,
  list_files_recursive fuel strptime self drive project folder_id = Some r ->
  list_files strptime self project
    (subtree_entries fuel drive project folder_id) = r.
Proof.
  induction fuel as [|fuel IH]; intros folder_id r H; [discriminate|].
  cbn [list_files_recursive subtree_entries] in *.
  unfold list_files_of in H. rewrite list_files_app.
  destruct (list_files strptime self project
              (answer_files (drive project (sent_dir_id folder_id))))
    as [printed [files|e]].
  - symmetry. eapply subfolders_loop_flat; [|exact H].
    intros sub r' Hr'. now apply IH.
  - now injection H as <-.
Qed.

Lemma subfolders_loop_more (rec1 rec2 : Z -> option listing_result) :
  (forall sub r, rec1 sub = Some r -> rec2 sub = Some r) ->
  forall folders all_files printed r,
    subfolders_loop rec1 folders all_files printed = Some r ->
    subfolders_loop rec2 folders all_files printed = Some r.
Proof.
  intros Hrec. induction folders as [|[n sub] rest IH];
    intros all_files printed r H; [exact H|].
  cbn [subfolders_loop] in *.
  destruct (rec1 sub) as [[p [files|e]]|] eqn:Hsub; [| |discriminate];
    rewrite (Hrec _ _ Hsub); auto.
Qed.

(** More fuel does not change what came back. *)
Lemma list_files_recursive_more fuel : forall fuel' folder_id r,
  (fuel <= fuel')%nat ->
  list_files_recursive fuel strptime self drive project folder_id = Some r ->
  list_files_recursive fuel' strptime self drive project folder_id = Some r.
Proof.
  induction fuel as [|fuel IH]; intros fuel' folder_id r Hle H; [discriminate|].
  destruct fuel' as [|fuel']; [lia|].
  cbn [list_files_recursive] in *.
  destruct (list_files_of strptime self drive project folder_id)
    as [printed [files|e]]; [|exact H].
  eapply subfolders_loop_more; [|exact H].
  intros sub r' Hr'. apply (IH fuel'); [lia|exact Hr'].
Qed.

Lemma subfolders_loop_total (recurse : Z -> option listing_result) :
  forall folders all_files printed,
    (forall n sub, In (n, sub) folders -> exists r, recurse sub = Some r) ->
    exists r, subfolders_loop recurse folders all_files printed = Some r.
Proof.
  induction folders as [|[n sub] rest IH]; intros all_files printed H.
  - eexists. reflexivity.
  - cbn [subfolders_loop].
    destruct (H n sub (or_introl eq_refl)) as [[p [files|e]] ->].
    + apply IH. intros n' sub' Hin. apply (H n' sub'). now right.
    + eexists. reflexivity.
Qed.

(** Fuel for the depth of the folders is enough. *)
Lemma list_files_recursive_total depth folder_id :
  within drive project depth folder_id ->
  exists r,
    list_files_recursive depth strptime self drive project folder_id = Some r.
Proof.
  induction 1 as [depth folder_id _ IH].
  cbn [list_files_recursive].
  destruct (list_files_of strptime self drive project folder_id)
    as [printed [files|e]]; [|eexists; reflexivity].
  apply subfolders_loop_total. intros n sub Hin. exact (IH n sub Hin).
Qed.

End RecursiveListing.

(** X13.  When no chain of sub-folders below the folder is longer than
    [depth], the recursive listing comes back, with the same result for any
    larger bound on the recursion, and that result is what a single listing
    of all the entries below the folder, taken depth first, gives: the
    documents of the folder first, then those of each sub-folder in turn,
    or the exception of the first entry that cannot be read. *)
Theorem recursive_listing_is_the_listing_of_the_subtree
  (strptime : string -> string -> option Z) (self : WimiFileSource)
  (drive : Drive) (wimi_project : string) (folder_id : option Z)
  (depth fuel : nat) :
  within drive wimi_project depth folder_id ->
  (depth <= fuel)%nat ->
  list_files_recursive fuel strptime self drive wimi_project folder_id
  = Some (list_files strptime self wimi_project
            (subtree_entries depth drive wimi_project folder_id)).
Proof.
  intros Hwithin Hle.
  destruct (list_files_recursive_total strptime self Hwithin) as [r Hr].
  rewrite (list_files_recursive_more _ _ _ _ _ Hle Hr).
  f_equal. symmetry. now apply list_files_recursive_flat.
Qed.

Lemma recursive_listing_is_the_listing_of_the_subtree_witness :
  list_files_recursive 5 sample_strptime (WimiFileSource_init None)
    sample_drive "7" None
  = Some (list_files sample_strptime (WimiFileSource_init None) "7"
            (subtree_entries 3 sample_drive "7" None)).
Proof.
  apply recursive_listing_is_the_listing_of_the_subtree.
  - constructor. intros n sub [H|[H|[]]]; injection H as <- <-.
    + constructor. intros n sub [H|[]]; injection H as <- <-.
      constructor. intros n sub [].
    + constructor. intros n sub [].
  - lia.
Defined.

Example recursive_listing_of_sample_drive :
  list_files_recursive 5 sample_strptime (WimiFileSource_init None)
    sample_drive "7" None
  = Some ([MsgNotSupportedFile "notes.xyz"],
          Ok [mkDocument "a.pdf" "501" 1704164645 None (Some "7");
              mkDocument "a.pdf" "502" 1704164645 None (Some "7")]).
Proof. reflexivity. Qed.

(** ** Folders: the resolution of a name *)

Lemma first_match_ok (folders : list (string * Z)) wanted folder_id :
  py_index (map snd (filter (fun f => String.eqb (fst f) wanted) folders)) 0
    = Ok folder_id <->
  exists before after,
    folders = before ++ (wanted, folder_id) :: after /\
    forall f, In f before -> fst f <> wanted.
Proof.
  induction folders as [|[n z] rest IH]; cbn [filter fst].
  - split; [discriminate|]. intros (before & after & H & _).
    destruct before; discriminate.
  - destruct (String.eqb_spec n wanted) as [->|Hne].
    + cbn. split.
      * intros [= ->]. exists [], rest. split; [reflexivity|intros ? []].
      * intros (before & after & H & Hb). destruct before as [|p before].
        -- now injection H as ->.
        -- injection H as <- _. exfalso.
           apply (Hb (wanted, z)); [now left|reflexivity].
    + rewrite IH. split.
      * intros (before & after & -> & Hb).
        exists ((n, z) :: before), after. split; [reflexivity|].
        intros p [<-|Hp]; [exact Hne|now apply Hb].
      * intros (before & after & H & Hb). destruct before as [|p before].
        -- injection H as -> _. congruence.
        -- injection H as <- ->. exists before, after.
           split; [reflexivity|]. intros q Hq. apply Hb. now right.
Qed.

Lemma first_match_err (folders : list (string * Z)) wanted e :
  py_index (map snd (filter (fun f => String.eqb (fst f) wanted) folders)) 0
    = Err e ->
  ~ In wanted (map fst folders).
Proof.
  induction folders as [|[n z] rest IH]; cbn [filter fst map]; [auto|].
  destruct (String.eqb_spec n wanted) as [->|Hne]; [discriminate|].
  intros H [Heq|Hin]; [congruence|]. now apply IH.
Qed.

(** X14.  [retrieve_files_from_folder] takes "root" for the top level
    without looking anything up, so a folder that is named "root" cannot
    be chosen; any other name is looked up among the folders of the top
    level only, the first of that name is taken, and a name that is not
    there raises [IndexError] before anything is listed, however deep a
    folder of that name may exist. *)
Theorem folder_names_are_resolved_at_the_top_level (drive : Drive)
  (wimi_project folder_identifier_or_name : string) :
  let top := list_folders drive wimi_project None in
  (resolve_folder drive wimi_project folder_identifier_or_name = Ok None <->
   folder_identifier_or_name = "root") /\
  (forall folder_id,
     resolve_folder drive wimi_project folder_identifier_or_name
       = Ok (Some folder_id) <->
     folder_identifier_or_name <> "root" /\
     exists before after,
       top = before ++ (folder_identifier_or_name, folder_id) :: after /\
       forall f, In f before -> fst f <> folder_identifier_or_name) /\
  (forall fuel strptime file_source include_subfolders verbose,
     folder_identifier_or_name <> "root" ->
     ~ In folder_identifier_or_name (map fst top) ->
     retrieve_files_from_folder fuel strptime file_source drive wimi_project
       folder_identifier_or_name include_subfolders verbose
     = Some ([FolderNotFound folder_identifier_or_name], Err IndexError)).
Proof.
  intros top. unfold retrieve_files_from_folder, resolve_folder. fold top.
  destruct (String.eqb_spec folder_identifier_or_name "root") as [Hroot|Hroot].
  - split; [tauto|]. split; [|tauto].
    intros folder_id. split; [discriminate|tauto].
  - split; [|split].
    + split; [|tauto].
      destruct (py_index _ 0); discriminate.
    + intros folder_id. rewrite <- first_match_ok.
      destruct (py_index _ 0) as [z|e]; split.
      * intros [= ->]. now split.
      * now intros [_ [= ->]].
      * discriminate.
      * intros [_ H]. discriminate.
    + intros fuel strptime file_source include_subfolders verbose _ Hnot.
      destruct (py_index _ 0) as [z|e] eqn:Hidx; [|reflexivity].
      exfalso. apply Hnot. apply first_match_ok in Hidx
        as (before & after & -> & _).
      rewrite map_app. apply in_or_app. right. now left.
Qed.

Example deep_folder_is_not_found :
  resolve_folder sample_drive "7" "Reports" = Ok (Some 5) /\
  retrieve_files_from_folder 5 sample_strptime (WimiFileSource_init None)
    sample_drive "7" "Deep" true false
  = Some ([FolderNotFound "Deep"], Err IndexError).
Proof. split; reflexivity. Qed.

(** ** The paged listing of the sink *)

Lemma pages_loop_run n : forall fuel sink first documents asked,
  (forall k, (first <= k < first + n)%nat ->
     exists p, sink k = Some p /\ Paging.has_more p = true) ->
  Paging.pages_loop (n + fuel) sink first documents asked
  = Paging.pages_loop fuel sink (first + n)
      (documents ++ Paging.pages_data sink first n) (asked ++ seq first n).
Proof.
  induction n as [|n IH]; intros fuel sink first documents asked H.
  - cbn. now rewrite Nat.add_0_r, !app_nil_r.
  - cbn [Nat.add Paging.pages_loop].
    destruct (H first ltac:(lia)) as (p & Hp & Hmore). rewrite Hp, Hmore.
    rewrite IH by (intros k Hk; apply H; lia).
    unfold Paging.pages_data. cbn [seq flat_map]. rewrite Hp.
    rewrite <- !app_assoc. replace (S first + n)%nat with (first + S n)%nat by lia.
    reflexivity.
Qed.

(** X15.  The paged listing asks for the pages 1, 2, ... in order as long
    as each says [has_more]; the first page that does not say so, or does
    not say, ends it with the documents of all the pages read, and a page
    whose status is not 200 ends it with an exception that loses the
    documents read so far. *)
Theorem paged_listing_reads_until_the_last_page (sink : Paging.Sink)
  (n fuel : nat) :
  (forall k, (1 <= k <= n)%nat ->
     exists p, sink k = Some p /\ Paging.has_more p = true) ->
  (forall p, sink (S n) = Some p -> Paging.has_more p = false) ->
  (n < fuel)%nat ->
  Paging.get_existing_documents fuel sink
  = Some (seq 1 (S n),
          match sink (S n) with
          | Some _ => Ok (Paging.pages_data sink 1 (S n))
          | None => Err (Exception_ "Failed to fetch existing documents")
          end).
Proof.
  intros Hmore Hlast Hfuel. unfold Paging.get_existing_documents.
  replace fuel with (n + S (fuel - S n))%nat by lia.
  rewrite pages_loop_run by (intros k Hk; apply Hmore; lia).
  cbn [Paging.pages_loop app Nat.add].
  replace (seq 1 (S n)) with (seq 1 n ++ [S n]) by (symmetry; apply seq_S).
  destruct (sink (S n)) as [p|] eqn:Hp; [|reflexivity].
  rewrite (Hlast p eq_refl). do 2 f_equal.
  unfold Paging.pages_data. rewrite seq_S, flat_map_app. cbn [flat_map Nat.add].
  now rewrite Hp, app_nil_r.
Qed.

Lemma paged_listing_reads_until_the_last_page_witness :
  Paging.get_existing_documents 5 two_pages
  = Some (seq 1 2,
          match two_pages 2%nat with
          | Some _ => Ok (Paging.pages_data two_pages 1 2)
          | None => Err (Exception_ "Failed to fetch existing documents")
          end).
Proof.
  apply (@paged_listing_reads_until_the_last_page two_pages 1 5).
  - intros k Hk. assert (k = 1%nat) as -> by lia. eexists. split; reflexivity.
  - intros p [= <-]. reflexivity.
  - lia.
Defined.

(** X16.  The paged listing has no bound of its own: against a sink whose
    every page says [has_more], it does not come back, whatever the number
    of turns allowed. *)
Theorem paged_listing_never_ends_on_endless_pages (sink : Paging.Sink) :
  (forall k, (1 <= k)%nat ->
     exists p, sink k = Some p /\ Paging.has_more p = true) ->
  forall fuel, Paging.get_existing_documents fuel sink = None.
Proof.
  intros Hmore fuel. unfold Paging.get_existing_documents.
  replace fuel with (fuel + 0)%nat by lia.
  rewrite pages_loop_run by (intros k Hk; apply Hmore; lia).
  reflexivity.
Qed.

Lemma paged_listing_never_ends_on_endless_pages_witness :
  Paging.get_existing_documents 1000 endless_pages = None.
Proof.
  apply (@paged_listing_never_ends_on_endless_pages endless_pages).
  intros k _. eexists. split; reflexivity.
Defined.


(** ** The knowledge base *)

Lemma find_dataset_some datasets wanted dataset_id :
  find_dataset datasets wanted = Some dataset_id <->
  exists before after,
    datasets = before ++ (wanted, dataset_id) :: after /\
    forall d, In d before -> fst d <> wanted.
Proof.
  induction datasets as [|[n j] rest IH]; simpl.
  - split; [discriminate|]. intros (before & after & H & _).
    destruct before; discriminate.
  - destruct (String.eqb_spec n wanted) as [->|Hne].
    + split.
      * intros [= ->]. exists [], rest. split; [reflexivity|intros ? []].
      * intros (before & after & H & Hb). destruct before as [|p before].
        -- now injection H as ->.
        -- injection H as <- _. exfalso.
           apply (Hb (wanted, j)); [now left|reflexivity].
    + rewrite IH. split.
      * intros (before & after & -> & Hb).
        exists ((n, j) :: before), after. split; [reflexivity|].
        intros p [<-|Hp]; [exact Hne|now apply Hb].
      * intros (before & after & H & Hb). destruct before as [|p before].
        -- injection H as -> _. congruence.
        -- injection H as <- ->. exists before, after.
           split; [reflexivity|]. intros q Hq. apply Hb. now right.
Qed.

Lemma find_dataset_none datasets wanted :
  find_dataset datasets wanted = None <-> ~ In wanted (map fst datasets).
Proof.
  induction datasets as [|[n j] rest IH]; simpl; [tauto|].
  destruct (String.eqb_spec n wanted) as [->|Hne].
  - split; [discriminate|]. intros H. exfalso. apply H. now left.
  - rewrite IH. tauto.
Qed.

(** X17.  [get_or_create_knowledge] asks the sink to create a knowledge
    base exactly when the listing failed or lists none of that name, a
    failed listing being no error of its own; the outcome is then that of
    the creation.  Otherwise it returns the identifier of the first listed
    one of that name and creates nothing. *)
Theorem knowledge_base_is_found_or_created
  (listed : option (list (string * string))) (created : option string)
  (knowledge_name : string) :
  let run := get_or_create_knowledge listed created knowledge_name in
  (In (PostDataset knowledge_name) (fst run) <->
   listed = None \/
   exists datasets,
     listed = Some datasets /\ ~ In knowledge_name (map fst datasets)) /\
  (In (PostDataset knowledge_name) (fst run) ->
   snd run = match created with
             | Some dataset_id => Ok dataset_id
             | None => Err (Exception_ "Failed to create knowledge base:")
             end) /\
  (~ In (PostDataset knowledge_name) (fst run) ->
   exists datasets before dataset_id after,
     listed = Some datasets /\
     datasets = before ++ (knowledge_name, dataset_id) :: after /\
     (forall d, In d before -> fst d <> knowledge_name) /\
     snd run = Ok dataset_id).
Proof.
  intros run. subst run. unfold get_or_create_knowledge.
  destruct listed as [datasets|].
  - destruct (find_dataset datasets knowledge_name) as [dataset_id|] eqn:Hfind;
      cbn [fst snd].
    + assert (Hno : ~ In (PostDataset knowledge_name)
                      [GetDatasets; FoundKnowledgeBase knowledge_name])
        by (intros [H|[H|[]]]; discriminate).
      split; [|split].
      * split; [tauto|].
        intros [H|(ds & [= <-] & Hnot)]; [discriminate|].
        apply find_dataset_none in Hnot. congruence.
      * tauto.
      * intros _. apply find_dataset_some in Hfind as (before & after & -> & Hb).
        now exists (before ++ (knowledge_name, dataset_id) :: after),
                   before, dataset_id, after.
    + split; [|split].
      * split; [|simpl; auto].
        intros _. right. exists datasets. split; [reflexivity|].
        now apply find_dataset_none.
      * reflexivity.
      * intros H. exfalso. apply H. simpl. auto.
  - cbn [fst snd]. split; [|split].
    + split; [auto|simpl; auto].
    + reflexivity.
    + intros H. exfalso. apply H. simpl. auto.
Qed.

(** ** The pairs of the main program *)

Lemma split_single c s :
  List.length (Str.split c s) = 1%nat <-> Str.has_char c s = false.
Proof.
  split.
  - induction s as [|a s IH]; [reflexivity|]. simpl.
    destruct (Ascii.eqb a c) eqn:E.
    + pose proof (StrFacts.split_not_nil c s) as Hne.
      destruct (Str.split c s); [congruence|discriminate].
    + pose proof (StrFacts.split_not_nil c s) as Hne.
      destruct (Str.split c s) as [|h t] eqn:Hs; [congruence|].
      intros Hlen. apply has_char_cons_false; [now apply Ascii.eqb_neq|].
      apply IH. exact Hlen.
  - intros H. now rewrite StrFacts.split_no_sep.
Qed.

Lemma combine_repeat {A B} (x : A) (l : list B) :
  combine (repeat x (List.length l)) l = map (fun y => (x, y)) l.
Proof. induction l as [|y l IH]; simpl; [reflexivity|now rewrite IH]. Qed.

Lemma map_snd_combine {A B} (l1 : list A) : forall l2 : list B,
  map snd (combine l1 l2) = firstn (List.length l1) l2.
Proof.
  induction l1 as [|x l1 IH]; intros [|y l2]; simpl; try reflexivity.
  now rewrite IH.
Qed.

(** X18.  The main program pairs one workspace, taken as typed, with every
    folder of the list; given a list of workspaces it pairs them with the
    folders position by position and stops at the shorter list, so the
    folders beyond the number of workspaces are left out without a word. *)
Theorem folders_beyond_the_workspaces_are_dropped (folders workspace : string) :
  (Str.has_char comma workspace = false ->
   folder_pairs folders workspace
   = map (fun f => (workspace, f)) (folder_identifiers_or_names folders)) /\
  (Str.has_char comma workspace = true ->
   folder_pairs folders workspace
   = combine (map strip (Str.split comma workspace))
             (folder_identifiers_or_names folders) /\
   List.length (folder_pairs folders workspace)
   = Nat.min (List.length (Str.split comma workspace))
             (List.length (Str.split comma folders)) /\
   map snd (folder_pairs folders workspace)
   = firstn (List.length (Str.split comma workspace))
            (folder_identifiers_or_names folders)).
Proof.
  unfold folder_pairs, workspaces_input. split; intros H.
  - apply split_single in H. rewrite H. cbn [Nat.eqb].
    apply combine_repeat.
  - destruct (Nat.eqb_spec (List.length (Str.split comma workspace)) 1)
      as [Hone|_].
    + apply split_single in Hone. congruence.
    + split; [reflexivity|]. split.
      * rewrite length_combine. unfold folder_identifiers_or_names.
        now rewrite !length_map.
      * rewrite map_snd_combine. now rewrite length_map.
Qed.

Example third_folder_is_dropped :
  folder_pairs "root, Reports ,Old" "General,Sales"
  = [("General", "root"); ("Sales", "Reports")] /\
  folder_pairs "root, Reports" " General"
  = [(" General", "root"); (" General", "Reports")].
Proof. split; reflexivity. Qed.

(** ** Folders: a folder listed inside itself *)

Section FolderInsideItself.
Variable strptime : string -> string -> option Z.
Variable self : WimiFileSource.
Variable drive : Drive.
Variable project : string.

(** The request is all the recursive listing knows of the folder. *)
Lemma list_files_recursive_sent fuel (a b : option Z) :
  sent_dir_id a = sent_dir_id b ->
  list_files_recursive fuel strptime self drive project a
  = list_files_recursive fuel strptime self drive project b.
Proof.
  intros Hsent. destruct fuel as [|fuel]; [reflexivity|].
  cbn [list_files_recursive]. unfold list_files_of, list_folders.
  now rewrite Hsent.
Qed.

(** The loop over the sub-folders gives a listing only if every recursive
    call did. *)
Lemma subfolders_loop_returns recurse folder_name subfolder_id folders :
  In (folder_name, subfolder_id) folders ->
  (forall printed files, recurse subfolder_id <> Some (printed, Ok files)) ->
  forall all_files printed printed' files,
    subfolders_loop recurse folders all_files printed
    <> Some (printed', Ok files).
Proof.
  intros Hin Hrec.
  induction folders as [|[n i] rest IH]; intros all_files printed printed' files;
    [destruct Hin|].
  cbn [subfolders_loop].
  destruct Hin as [[= -> ->]|Hin].
  - destruct (recurse subfolder_id) as [[p [fs|e]]|] eqn:Hr;
      [exfalso; exact (Hrec _ _ eq_refl)|discriminate|discriminate].
  - destruct (recurse i) as [[p [fs|e]]|]; [|discriminate|discriminate].
    apply IH, Hin.
Qed.

End FolderInsideItself.

(** X19.  The recursive listing has no guard against a folder listed
    inside itself: when a folder lists a sub-folder whose request is its own
    (as a sub-folder with the [dir_id] 0 of the top level is, 0 being falsy),
    the recursive listing of that folder returns no listing, whatever the
    depth allowed. *)
Theorem folder_inside_itself_is_never_listed
  (strptime : string -> string -> option Z) (self : WimiFileSource)
  (drive : Drive) (wimi_project : string) (folder_id : option Z)
  (folder_name : string) (subfolder_id : Z) :
  In (folder_name, subfolder_id) (list_folders drive wimi_project folder_id) ->
  sent_dir_id (Some subfolder_id) = sent_dir_id folder_id ->
  forall fuel printed files,
    list_files_recursive fuel strptime self drive wimi_project folder_id
    <> Some (printed, Ok files).
Proof.
  intros Hin Hsent fuel.
  induction fuel as [|fuel IH]; intros printed files; [discriminate|].
  cbn [list_files_recursive].
  destruct (list_files_of strptime self drive wimi_project folder_id)
    as [p [fs|e]]; [|discriminate].
  eapply subfolders_loop_returns; [exact Hin|].
  intros printed' files'. cbv beta.
  erewrite list_files_recursive_sent by exact Hsent.
  apply IH.
Qed.

Lemma folder_inside_itself_is_never_listed_witness :
  list_files_recursive 50 sample_strptime (WimiFileSource_init None)
    zero_drive "7" None
  <> Some ([], Ok []).
Proof.
  apply (@folder_inside_itself_is_never_listed sample_strptime
           (WimiFileSource_init None) zero_drive "7" None "Zero" 0).
  - left. reflexivity.
  - reflexivity.
Defined.

